(** * MCP-Styles: the event-information server and the design-standards server

    A shallow embedding of the two tool servers of the repository:

    - the event-information server (sitemap parser, text extractor and the
      four site tools), module [EventInfo];
    - the design-standards server of [src/server.ts] (search, CSS rendering
      and the seven design-token tools), module [DesignStandards].

    JavaScript strings are modelled by [string]: the character with code [n]
    stands for the UTF-16 code unit [n], so the model covers the strings
    whose code units are all below 256, and what is proved about
    [toLowerCase] is proved for these strings (beyond them lower-casing
    is not a map of single code units).  Exceptions are modelled by the
    [Result] monad, the network by a function from URLs to responses. *)

From Stdlib Require Import String Ascii List ZArith NArith Lia Bool DecimalString.
Import ListNotations.
Open Scope list_scope.
Open Scope string_scope.

(** ** JavaScript strings and built-ins *)

Module JS.

Definition code (c : ascii) : N := N_of_ascii c.

Definition between (lo hi : N) (c : ascii) : bool :=
  ((lo <=? code c) && (code c <=? hi))%N.

(** [String.prototype.toLowerCase] on one code unit below 256: the letters
    A-Z and the Latin-1 capitals U+00C0..U+00DE (U+00D7, the multiplication
    sign, apart) move up by 32, every other code unit is kept. *)
Definition lowerChar (c : ascii) : ascii :=
  if between 65 90 c || (between 192 222 c && negb (code c =? 215)%N)
  then ascii_of_N (code c + 32)
  else c.

(** [toUpperCase] on one code unit: a-z and U+00E0..U+00FE (the division
    sign U+00F7 apart) move down by 32.  The three code units whose capital
    is not one code unit below 256 (U+00B5, U+00DF, U+00FF) are kept; the
    only caller capitalises component names, which are ASCII. *)
Definition upperChar (c : ascii) : ascii :=
  if between 97 122 c || (between 224 254 c && negb (code c =? 247)%N)
  then ascii_of_N (code c - 32)
  else c.

Fixpoint toLowerCase (s : string) : string :=
  match s with
  | "" => ""
  | String c s' => String (lowerChar c) (toLowerCase s')
  end.

(** A code unit is upper case when lower-casing changes it. *)
Definition isUpper (c : ascii) : bool := negb (Ascii.eqb (lowerChar c) c).

Fixpoint anyChar (p : ascii -> bool) (s : string) : bool :=
  match s with
  | "" => false
  | String c s' => p c || anyChar p s'
  end.

(** [s.startsWith(p)] *)
Fixpoint startsWith (s p : string) {struct p} : bool :=
  match p with
  | "" => true
  | String b p' =>
      match s with
      | "" => false
      | String a s' => Ascii.eqb a b && startsWith s' p'
      end
  end.

(** [s.includes(t)]: [t] occurs in [s] at some position. *)
Fixpoint includes (s t : string) : bool :=
  startsWith s t ||
  match s with
  | "" => false
  | String _ s' => includes s' t
  end.

(** [s.slice(n)] for [0 <= n]. *)
Fixpoint drop (n : nat) (s : string) : string :=
  match n, s with
  | O, _ => s
  | S _, "" => ""
  | S n', String _ s' => drop n' s'
  end.

(** [arr.join(sep)] on an array of strings. *)
Fixpoint join (sep : string) (l : list string) : string :=
  match l with
  | [] => ""
  | [x] => x
  | x :: l' => x ++ sep ++ join sep l'
  end.

(** The double-quote character, as a string. *)
Definition dquote : string := String (ascii_of_N 34) "".

(** The line feed, as a string. *)
Definition nl : string := String (ascii_of_N 10) "".

(** Decimal rendering of an integer, as in a template literal, for the
    integers of absolute value below 10^21 (from there on the code
    writes an exponent). *)
Definition showZ (z : Z) : string := NilZero.string_of_int (Z.to_int z).
Definition showNat (n : nat) : string := showZ (Z.of_nat n).

(** [arr.slice(0, end)] for an integer [end]: a negative [end] counts from
    the end of the array. *)
Definition slice0 {A} (l : list A) (e : Z) : list A :=
  if (e <? 0)%Z then firstn (Z.to_nat (Z.of_nat (length l) + e)) l
  else firstn (Z.to_nat e) l.

(** \s of a regular expression and the characters [trim] removes, among the
    code units below 256: TAB, LF, VT, FF, CR, SPACE and NBSP. *)
Definition isSpace (c : ascii) : bool :=
  between 9 13 c || (code c =? 32)%N || (code c =? 160)%N.

(** The line terminators, which [.] of a regular expression refuses. *)
Definition isLineTerminator (c : ascii) : bool :=
  (code c =? 10)%N || (code c =? 13)%N.

(** \w of a regular expression. *)
Definition isWordChar (c : ascii) : bool :=
  between 97 122 c || between 65 90 c || between 48 57 c || (code c =? 95)%N.

(** [n === 1 ? "" : "s"] *)
Definition plural (n : nat) : string := if Nat.eqb n 1 then "" else "s".

(** Exceptions: a computation returns a value or throws an error whose
    message is kept. *)
Inductive Result (A : Type) : Type :=
| Return (a : A)
| Throw (message : string).
Arguments Return {A} a.
Arguments Throw {A} message.

Definition bind {A B} (r : Result A) (k : A -> Result B) : Result B :=
  match r with
  | Return a => k a
  | Throw m => Throw m
  end.

(** The tool-call envelope [{content: [{type: "text", text}], isError?}];
    [isError = false] stands for the absent field. *)
Record Envelope := { text : string; isError : bool }.

Definition ok (t : string) : Envelope := {| text := t; isError := false |}.
Definition failure (t : string) : Envelope := {| text := t; isError := true |}.

(** [try { ... } catch (error) { return {text: `Error: ${message}`, isError: true} }] *)
Definition tryCatch (r : Result Envelope) : Envelope :=
  match r with
  | Return e => e
  | Throw m => failure ("Error: " ++ m)
  end.

End JS.

Import JS.

Declare Scope result_scope.
Notation "x <- c ;; k" := (bind c (fun x => k))
  (at level 61, c at next level, right associativity) : result_scope.
Open Scope result_scope.

(** ** The event-information server *)

Module EventInfo.

Record Site := { name : string; baseUrl : string; sitemapPath : string }.

Definition EVENT_SITES : list (string * Site) :=
  [ ("pmc", {| name := "Pan-Mass Challenge";
               baseUrl := "https://www.pmc.org";
               sitemapPath := "/sitemap.xml" |});
    ("unpaved", {| name := "Unpaved";
                   baseUrl := "https://www.unpaved.org";
                   sitemapPath := "/sitemap.xml" |});
    ("wintercycle", {| name := "Winter Cycle";
                       baseUrl := "https://www.wintercycle.org";
                       sitemapPath := "/sitemap.xml" |}) ].

(** [EVENT_SITES[site]] on the own properties of the registry.  The names
    the registry inherits from [Object.prototype] (constructor, toString
    and the like), which the lookup of the code finds too, are outside
    this definition; the input schema admits the three identifiers
    only. *)
Fixpoint lookupSite (sites : list (string * Site)) (site : string) : option Site :=
  match sites with
  | [] => None
  | (k, v) :: rest => if String.eqb k site then Some v else lookupSite rest site
  end.

Definition VALID_SITES : string := join ", " (map fst EVENT_SITES).

(** What the network answers to a GET. *)
Inductive Response :=
| NetworkFault (message : string)
| Http (ok : bool) (status : Z) (body : string).

Definition Network := string -> Response.

Definition fetchContent (net : Network) (url : string) : Result string :=
  match net url with
  | Http true _ body => Return body
  | Http false status _ =>
      Throw ("Failed to fetch from " ++ url ++ ": HTTP error! status: " ++ showZ status)
  | NetworkFault m => Throw ("Failed to fetch from " ++ url ++ ": " ++ m)
  end.

(** *** parseSitemap

    [/<loc>(.*?)<\/loc>/g]: after [<loc>], the lazy [.*?] takes the fewest
    characters, none of them a line terminator, up to the first [</loc>]. *)
Fixpoint locBody (s : string) : option (string * string) :=
  if startsWith s "</loc>" then Some ("", drop 6 s)
  else match s with
       | "" => None
       | String c s' =>
           if isLineTerminator c then None
           else match locBody s' with
                | Some (t, rest) => Some (String c t, rest)
                | None => None
                end
       end.

(** One attempt of the expression at the start of [s]: the captured group
    and the input after the match. *)
Definition execLoc (s : string) : option (string * string) :=
  if startsWith s "<loc>" then locBody (drop 5 s) else None.

(** The [while ((match = urlRegex.exec(xml)) !== null)] loop: [s] is the
    input from [lastIndex] on. *)
Fixpoint parseLoop (fuel : nat) (s : string) (urls : list string) : list string :=
  match fuel with
  | O => urls
  | S fuel' =>
      match execLoc s with
      | Some (t, rest) => parseLoop fuel' rest (urls ++ [t])%list
      | None =>
          match s with
          | "" => urls
          | String _ s' => parseLoop fuel' s' urls
          end
      end
  end.

Definition parseSitemap (xml : string) : list string :=
  parseLoop (S (String.length xml)) xml [].

(** *** extractTextFromHtml *)

(** [text.replace(re, rep)] with a global expression: [m] tries the
    expression at the start of its input and gives the input after the
    match; every match consumes at least one character. *)
Fixpoint replaceAll (m : string -> option string) (rep : string)
         (fuel : nat) (s : string) : string :=
  match fuel with
  | O => s
  | S fuel' =>
      match m s with
      | Some rest => rep ++ replaceAll m rep fuel' rest
      | None =>
          match s with
          | "" => ""
          | String c s' => String c (replaceAll m rep fuel' s')
          end
      end
  end.

Definition replace (m : string -> option string) (rep : string) (s : string) : string :=
  replaceAll m rep (S (String.length s)) s.

(** A literal pattern. *)
Definition literal (p : string) (s : string) : option string :=
  if startsWith s p then Some (drop (String.length p) s) else None.

(** [startsWith] under the [i] flag, for a pattern of ASCII characters. *)
Fixpoint startsWithCI (s p : string) {struct p} : bool :=
  match p with
  | "" => true
  | String b p' =>
      match s with
      | "" => false
      | String a s' =>
          Ascii.eqb (if between 65 90 a then lowerChar a else a) b
          && startsWithCI s' p'
      end
  end.

(** The rest of the input after the first [</tag>] (any case). *)
Fixpoint afterClose (close : string) (s : string) : option string :=
  if startsWithCI s close then Some (drop (String.length close) s)
  else match s with
       | "" => None
       | String _ s' => afterClose close s'
       end.

(** The expression that removes a [script] or [style] element, under the
    flags [g] and [i]: the opener [<tag] in any case, a word boundary, a run
    of characters other than [<], then repeatedly a [<] that does not start
    the closing tag followed by such a run, and last the closing tag.  Each
    run is maximal and every [<] is tested by the look-ahead, so a match
    ends with the first closing tag after the opener. *)
Definition block (tag : string) (s : string) : option string :=
  if startsWithCI s ("<" ++ tag) then
    let r := drop (S (String.length tag)) s in
    match r with
    | "" => None
    | String c _ =>
        if isWordChar c then None else afterClose ("</" ++ tag ++ ">") r
    end
  else None.

(** The input after the first [>]. *)
Fixpoint afterGt (s : string) : option string :=
  match s with
  | "" => None
  | String c s' => if Ascii.eqb c ">" then Some s' else afterGt s'
  end.

(** [/<[^>]+>/g]: [<], at least one character other than [>], then [>]. *)
Definition tag (s : string) : option string :=
  match s with
  | String a (String b s') =>
      if Ascii.eqb a "<" && negb (Ascii.eqb b ">") then afterGt s' else None
  | _ => None
  end.

(** [text.replace(/\s+/g, ' ')]; [inRun] holds inside a run of white space
    whose replacement was already written. *)
Fixpoint collapse (inRun : bool) (s : string) : string :=
  match s with
  | "" => ""
  | String c s' =>
      if isSpace c then
        if inRun then collapse true s' else String " " (collapse true s')
      else String c (collapse false s')
  end.

Fixpoint trimStart (s : string) : string :=
  match s with
  | "" => ""
  | String c s' => if isSpace c then trimStart s' else s
  end.

Fixpoint trimEnd (s : string) : string :=
  match s with
  | "" => ""
  | String c s' =>
      match trimEnd s' with
      | "" => if isSpace c then "" else String c ""
      | t => String c t
      end
  end.

Definition trim (s : string) : string := trimEnd (trimStart s).

Definition extractTextFromHtml (html : string) : string :=
  let text := replace (block "script") "" html in
  let text := replace (block "style") "" text in
  let text := replace tag " " text in
  let text := replace (literal "&nbsp;") " " text in
  let text := replace (literal "&amp;") "&" text in
  let text := replace (literal "&lt;") "<" text in
  let text := replace (literal "&gt;") ">" text in
  let text := replace (literal "&quot;") dquote text in
  let text := replace (literal "&#39;") "'" text in
  trim (collapse false text).

(** *** The site tools *)

Definition unknownSite (site : string) : Envelope :=
  failure ("Error: Unknown site " ++ dquote ++ site ++ dquote
           ++ ". Valid sites are: " ++ VALID_SITES).

Definition sitemapUrl (eventSite : Site) : string :=
  baseUrl eventSite ++ sitemapPath eventSite.

Definition fetch_sitemap (net : Network) (site : string) : Envelope :=
  tryCatch
    match lookupSite EVENT_SITES site with
    | None => Return (unknownSite site)
    | Some eventSite =>
        sitemapXml <- fetchContent net (sitemapUrl eventSite) ;;
        let urls := parseSitemap sitemapXml in
        Return (ok ("Sitemap for " ++ name eventSite ++ " (" ++ showNat (length urls)
                    ++ " URLs found):" ++ nl ++ nl ++ join nl urls))
    end.


(** The URLs [search_events] retains. *)
Definition searchMatches (urls : list string) (pattern : string)
           (caseInsensitive : bool) : list string :=
  let searchPattern := if caseInsensitive then toLowerCase pattern else pattern in
  filter (fun url =>
            let searchUrl := if caseInsensitive then toLowerCase url else url in
            includes searchUrl searchPattern) urls.

Definition search_events (net : Network) (site pattern : string)
           (caseInsensitive : bool) : Envelope :=
  tryCatch
    match lookupSite EVENT_SITES site with
    | None => Return (unknownSite site)
    | Some eventSite =>
        sitemapXml <- fetchContent net (sitemapUrl eventSite) ;;
        let urls := parseSitemap sitemapXml in
        let matches := searchMatches urls pattern caseInsensitive in
        if Nat.eqb (length matches) 0 then
          Return (ok ("No URLs found matching pattern " ++ dquote ++ pattern ++ dquote
                      ++ " in the " ++ name eventSite ++ " sitemap."))
        else
          Return (ok ("Found " ++ showNat (length matches) ++ " URL"
                      ++ plural (length matches) ++ " matching " ++ dquote ++ pattern
                      ++ dquote ++ " in " ++ name eventSite ++ ":" ++ nl ++ nl
                      ++ join nl matches))
    end.

(** [limit] is an integer here; the schema also admits fractions. *)
Definition list_all_events (net : Network) (site : string) (limit : Z) : Envelope :=
  tryCatch
    match lookupSite EVENT_SITES site with
    | None => Return (unknownSite site)
    | Some eventSite =>
        sitemapXml <- fetchContent net (sitemapUrl eventSite) ;;
        let urls := parseSitemap sitemapXml in
        let limitedUrls := if (0 <? limit)%Z then slice0 urls limit else urls in
        let hasMore := (0 <? limit)%Z && (limit <? Z.of_nat (length urls))%Z in
        Return (ok (name eventSite ++ " - Found " ++ showNat (length urls) ++ " total URLs"
                    ++ (if hasMore then " (showing first " ++ showZ limit ++ ")" else "")
                    ++ ":" ++ nl ++ nl ++ join nl limitedUrls
                    ++ (if hasMore
                        then nl ++ nl ++ "... and "
                             ++ showZ (Z.of_nat (length urls) - limit) ++ " more"
                        else "")))
    end.

End EventInfo.

(** ** The design-standards server *)

Module DesignStandards.

(** The values the handlers meet: what [JSON.parse] builds, and [undefined]
    for an absent property.  An object is the list of its own properties in
    the order [Object.entries] yields them, each key once; numbers are
    integers. *)
#[local] Set Warnings "-register-all".

Inductive JSValue :=
| JUndefined
| JNull
| JBool (b : bool)
| JNumber (n : Z)
| JString (s : string)
| JArray (items : list JSValue)
| JObject (props : list (string * JSValue)).

(** [typeof v === "object"] *)
Definition typeofObject (v : JSValue) : bool :=
  match v with
  | JNull | JArray _ | JObject _ => true
  | _ => false
  end.

Definition isNull (v : JSValue) : bool :=
  match v with JNull => true | _ => false end.

(** The truth value of [v] in a condition. *)
Definition truthy (v : JSValue) : bool :=
  match v with
  | JUndefined | JNull => false
  | JBool b => b
  | JNumber n => negb (n =? 0)%Z
  | JString s => negb (s =? "")
  | JArray _ | JObject _ => true
  end.

Fixpoint lookup (props : list (string * JSValue)) (key : string) : option JSValue :=
  match props with
  | [] => None
  | (k, v) :: rest => if k =? key then Some v else lookup rest key
  end.

(** The index properties of an array, from index [i] on. *)
Fixpoint indexed (i : nat) (items : list JSValue) : list (string * JSValue) :=
  match items with
  | [] => []
  | v :: rest => (showNat i, v) :: indexed (S i) rest
  end.

Fixpoint chars (s : string) : list JSValue :=
  match s with
  | "" => []
  | String c s' => JString (String c "") :: chars s'
  end.

(** The own properties of a value that is neither [undefined] nor [null]. *)
Definition ownEntries (v : JSValue) : list (string * JSValue) :=
  match v with
  | JObject props => props
  | JArray items => indexed 0 items
  | JString s => indexed 0 (chars s)
  | _ => []
  end.

(** [Object.entries(v)] *)
Definition entries (v : JSValue) : Result (list (string * JSValue)) :=
  match v with
  | JUndefined | JNull => Throw "Cannot convert undefined or null to object"
  | _ => Return (ownEntries v)
  end.

(** [v[key]] for a value that is neither [undefined] nor [null], on its
    own properties: a key that names a property inherited from
    [Object.prototype] is outside this definition. *)
Definition prop (v : JSValue) (key : string) : JSValue :=
  match v with
  | JArray items =>
      if key =? "length" then JNumber (Z.of_nat (length items))
      else match lookup (ownEntries v) key with Some x => x | None => JUndefined end
  | JString s =>
      if key =? "length" then JNumber (Z.of_nat (String.length s))
      else match lookup (ownEntries v) key with Some x => x | None => JUndefined end
  | _ => match lookup (ownEntries v) key with Some x => x | None => JUndefined end
  end.

(** [v[key]], which throws on [undefined] and [null]. *)
Definition getProp (v : JSValue) (key : string) : Result JSValue :=
  match v with
  | JUndefined =>
      Throw ("Cannot read properties of undefined (reading '" ++ key ++ "')")
  | JNull => Throw ("Cannot read properties of null (reading '" ++ key ++ "')")
  | _ => Return (prop v key)
  end.

(** [key in v] for an object [v]. *)
Definition hasProp (v : JSValue) (key : string) : bool :=
  match v with
  | JArray _ =>
      (key =? "length") || match lookup (ownEntries v) key with Some _ => true | None => false end
  | _ => match lookup (ownEntries v) key with Some _ => true | None => false end
  end.

(** The string a template literal makes of a value. *)
Fixpoint toString (v : JSValue) : string :=
  match v with
  | JUndefined => "undefined"
  | JNull => "null"
  | JBool true => "true"
  | JBool false => "false"
  | JNumber n => showZ n
  | JString s => s
  | JArray items =>
      join "," (map (fun x => match x with
                              | JUndefined | JNull => ""
                              | _ => toString x
                              end) items)
  | JObject _ => "[object Object]"
  end.

(** A [for ... of] loop whose body may throw, threading the variables the
    body assigns. *)
Fixpoint forEach {A S : Type} (l : list A) (body : S -> A -> Result S) (s : S)
  : Result S :=
  match l with
  | [] => Return s
  | x :: rest => s' <- body s x ;; forEach rest body s'
  end.

(** *** JSON.parse

    The document is [JSON.parse] of the text of the file.  [Json] is what
    the text declares, the members of an object in the order written;
    [ofJson] is the value [JSON.parse] builds from it. *)

Inductive Json :=
| JsonNull
| JsonBool (b : bool)
| JsonNumber (n : Z)
| JsonString (s : string)
| JsonArray (items : list Json)
| JsonObject (members : list (string * Json)).

(** The number a string of decimal digits writes, after [acc]. *)
Fixpoint digitsValue (s : string) (acc : N) : option N :=
  match s with
  | "" => Some acc
  | String c s' =>
      if between 48 57 c then digitsValue s' (10 * acc + (code c - 48))%N else None
  end.

(** The array index a key is: the key is the canonical decimal form of an
    integer from 0 to 2^32 - 2. *)
Definition arrayIndex (key : string) : option N :=
  match key with
  | "" => None
  | String c rest =>
      if Ascii.eqb c "0" && negb (rest =? "") then None
      else match digitsValue key 0 with
           | Some n => if (n <? 4294967295)%N then Some n else None
           | None => None
           end
  end.

Definition isArrayIndex (key : string) : bool :=
  match arrayIndex key with Some _ => true | None => false end.

(** [CreateDataProperty]: a key the object has already keeps its place and
    takes the new value, a new key goes to the end. *)
Fixpoint define (props : list (string * JSValue)) (key : string) (v : JSValue)
  : list (string * JSValue) :=
  match props with
  | [] => [(key, v)]
  | (k, old) :: rest =>
      if k =? key then (k, v) :: rest else (k, old) :: define rest key v
  end.

Fixpoint insertByIndex (x : N * (string * JSValue)) (l : list (N * (string * JSValue)))
  : list (N * (string * JSValue)) :=
  match l with
  | [] => [x]
  | y :: rest => if (fst x <=? fst y)%N then x :: l else y :: insertByIndex x rest
  end.

(** The properties that are array indices, each with its index. *)
Fixpoint indexProps (props : list (string * JSValue)) : list (N * (string * JSValue)) :=
  match props with
  | [] => []
  | kv :: rest =>
      match arrayIndex (fst kv) with
      | Some n => (n, kv) :: indexProps rest
      | None => indexProps rest
      end
  end.

(** The order in which an ordinary object lists its own properties, and
    [Object.entries] with it: the array indices in ascending order, then
    the other keys in the order of their creation. *)
Definition ownPropertyOrder (props : list (string * JSValue)) : list (string * JSValue) :=
  (map snd (fold_right insertByIndex [] (indexProps props))
   ++ filter (fun kv => negb (isArrayIndex (fst kv))) props)%list.

Fixpoint ofJson (j : Json) : JSValue :=
  match j with
  | JsonNull => JNull
  | JsonBool b => JBool b
  | JsonNumber n => JNumber n
  | JsonString s => JString s
  | JsonArray items => JArray (map ofJson items)
  | JsonObject members =>
      JObject (ownPropertyOrder
                 (fold_left (fun props kv => define props (fst kv) (snd kv))
                            (map (fun '(k, v) => (k, ofJson v)) members) []))
  end.

(** *** generateCSSVariables *)

(** The line [processObject] writes for a string value. *)
Definition variableLine (indent key value : string) : string :=
  indent ++ key ++ ": " ++ value ++ ";" ++ nl.

(** [processObject(obj, prefix)], with the string [css] it appends to
    passed in and out ([prefix] is handed down and never read).  Only an
    object that is not an array is entered; a string is written; every
    other value is passed over. *)
Fixpoint processObject (indent : string) (obj : JSValue) (css : string)
         {struct obj} : string :=
  match obj with
  | JObject props =>
      (fix loop (props : list (string * JSValue)) (css : string) :=
         match props with
         | [] => css
         | (key, value) :: rest =>
             let css :=
               match value with
               | JObject _ => processObject indent value css
               | JString s => css ++ variableLine indent key s
               | _ => css
               end in
             loop rest css
         end) props css
  | JArray items =>
      (fix loop (i : nat) (items : list JSValue) (css : string) :=
         match items with
         | [] => css
         | value :: rest =>
             let css :=
               match value with
               | JObject _ => processObject indent value css
               | JString s => css ++ variableLine indent (showNat i) s
               | _ => css
               end in
             loop (S i) rest css
         end) 0%nat items css
  | JString _ =>
      fold_left (fun css kv =>
                   match snd kv with
                   | JString s => css ++ variableLine indent (fst kv) s
                   | _ => css
                   end)
                (ownEntries obj) css
  | _ => css
  end.

Definition generateCSSVariables (variables : JSValue) (indent : string) : Result string :=
  match variables with
  | JUndefined | JNull => Throw "Cannot convert undefined or null to object"
  | _ =>
      let css := ":root {" ++ nl in
      let css := processObject indent variables css in
      Return (css ++ "}" ++ nl)
  end.

(** *** generateComponentCSS *)

(** What one turn of the loop of [processRules] appends to [css]. *)
Definition ruleLine (key : string) (value : JSValue) : string :=
  match value with
  | JString s => if key =? "css" then "  " ++ s ++ nl else ""
  | _ =>
      if (key =? "hover") && typeofObject value then ""
      else if typeofObject value && negb (isNull value) && hasProp value "css"
           then "  " ++ toString (prop value "css") ++ nl
           else ""
  end.

(** What one turn of the loop over [rules.hover] appends. *)
Definition hoverLine (key : string) (value : JSValue) : string :=
  match value with
  | JString s => if key =? "css" then "  " ++ s ++ nl else ""
  | _ => ""
  end.

Definition generateComponentCSS (component : string) (rules : JSValue)
           (brandPrefix : string) : Result string :=
  let css := "." ++ brandPrefix ++ "-" ++ component ++ " {" ++ nl in
  props <- entries rules ;;
  let css := fold_left (fun css kv => css ++ ruleLine (fst kv) (snd kv)) props css in
  let css := css ++ "}" ++ nl in
  hover <- getProp rules "hover" ;;
  if truthy hover then
    let css := css ++ nl ++ "." ++ brandPrefix ++ "-" ++ component ++ ":hover {" ++ nl in
    let css :=
      match prop hover "css" with
      | JString s => css ++ "  " ++ s ++ nl
      | _ =>
          if typeofObject hover
          then fold_left (fun css kv => css ++ hoverLine (fst kv) (snd kv))
                         (ownEntries hover) css
          else css
      end in
    Return (css ++ "}" ++ nl)
  else Return css.

(** *** searchDesignStandards *)

Record Match := { path : string; key : string; value : JSValue }.

Section Search.

Variable query : string.
Variable caseSensitive : bool.

Definition searchTerm : string :=
  if caseSensitive then query else toLowerCase query.

(** The first condition of the loop body: the key or the dotted path
    contains the search term. *)
Definition keyCheck (pathString key : string) : bool :=
  let searchKey := if caseSensitive then key else toLowerCase key in
  includes searchKey searchTerm || includes (toLowerCase pathString) searchTerm.

(** The second condition: the value is a string that contains the term. *)
Definition valueCheck (value : JSValue) : bool :=
  match value with
  | JString s =>
      let searchValue := if caseSensitive then s else toLowerCase s in
      includes searchValue searchTerm
  | _ => false
  end.

(** The two [results.push] of the loop body for one property. *)
Definition visit (currentPath : list string) (key : string) (value : JSValue)
           (results : list Match) : list Match :=
  let pathString := join "." currentPath in
  let results :=
    if keyCheck pathString key
    then (results ++ [{| path := pathString; key := key; value := value |}])%list
    else results in
  if valueCheck value
  then (results ++ [{| path := pathString; key := key; value := value |}])%list
  else results.

(** [searchObject(obj, path)], with the array [results] it pushes to passed
    in and out. *)
Fixpoint searchObject (obj : JSValue) (path : list string) (results : list Match)
         {struct obj} : list Match :=
  match obj with
  | JObject props =>
      (fix loop (props : list (string * JSValue)) (results : list Match) :=
         match props with
         | [] => results
         | (key, value) :: rest =>
             let currentPath := (path ++ [key])%list in
             let results := visit currentPath key value results in
             let results :=
               match value with
               | JArray _ | JObject _ => searchObject value currentPath results
               | _ => results
               end in
             loop rest results
         end) props results
  | JArray items =>
      (fix loop (i : nat) (items : list JSValue) (results : list Match) :=
         match items with
         | [] => results
         | value :: rest =>
             let key := showNat i in
             let currentPath := (path ++ [key])%list in
             let results := visit currentPath key value results in
             let results :=
               match value with
               | JArray _ | JObject _ => searchObject value currentPath results
               | _ => results
               end in
             loop (S i) rest results
         end) 0%nat items results
  | JString s =>
      fold_left (fun results kv => visit (path ++ [fst kv])%list (fst kv) (snd kv) results)
                (ownEntries obj) results
  | _ => results
  end.

Definition searchDesignStandards (designStandards : JSValue) : Result (list Match) :=
  match designStandards with
  | JUndefined | JNull => Throw "Cannot convert undefined or null to object"
  | _ => Return (searchObject designStandards [] [])
  end.

End Search.

(** *** The tools *)

Section Tools.

(** [JSON.stringify(v, null, 2)], whose output no property below depends
    on. *)
Variable stringify : JSValue -> string.

(** The document loaded at start. *)
Variable designStandards : JSValue.

(** [Object.keys(designStandards.brands).join(", ")], computed at start;
    the process ends there when it throws, so that no tool runs. *)
Definition VALID_BRANDS : string :=
  match (brands <- getProp designStandards "brands" ;; entries brands) with
  | Return props => join ", " (map fst props)
  | Throw _ => ""
  end.


(** The loop that writes the declarations of every category but
    [fontFiles], shared by three tools. *)
Definition variableLines (cssData : JSValue) (css : string) : Result string :=
  categories <- entries cssData ;;
  forEach categories
    (fun css kv =>
       let '(category, variables) := kv in
       if category =? "fontFiles" then Return css
       else
         let css := css ++ "  /* " ++ category ++ " */" ++ nl in
         vars <- entries variables ;;
         let css := fold_left (fun css kv => css ++ "  " ++ fst kv ++ ": "
                                              ++ toString (snd kv) ++ ";" ++ nl)
                              vars css in
         Return (css ++ nl))
    css.

Definition get_brand_styles (brand format : string) : Envelope :=
  tryCatch
    (brands <- getProp designStandards "brands" ;;
     brandData <- getProp brands brand ;;
     if negb (truthy brandData) then
       Return (failure ("Error: Unknown brand " ++ dquote ++ brand ++ dquote
                        ++ ". Valid brands are: " ++ VALID_BRANDS))
     else if format =? "css" then
       let css := "/* " ++ toString (prop brandData "name") ++ " - Design Standards */"
                  ++ nl ++ nl in
       css <- (if truthy (prop brandData "css") then
                 let css := css ++ "/* CSS Variables */" ++ nl in
                 let css := css ++ ":root {" ++ nl in
                 css <- variableLines (prop brandData "css") css ;;
                 Return (css ++ "}" ++ nl)
               else Return css) ;;
       Return (ok css)
     else Return (ok (stringify brandData))).

(** [category] is [None] when the optional argument is left out. *)
Definition get_css_variables (brand : string) (category : option string)
           (format : string) : Envelope :=
  tryCatch
    (brands <- getProp designStandards "brands" ;;
     brandData <- getProp brands brand ;;
     if negb (truthy brandData) || negb (truthy (prop brandData "css")) then
       Return (failure ("Error: No CSS data for brand " ++ dquote ++ brand ++ dquote))
     else
       let cssData :=
         match category with
         | Some (String _ _ as category) =>
             JObject [(category, prop (prop brandData "css") category)]
         | _ => prop brandData "css"
         end in
       if format =? "css" then
         css <- variableLines cssData (":root {" ++ nl) ;;
         Return (ok (css ++ "}" ++ nl))
       else Return (ok (stringify cssData))).

(** [brand] is [None] when the optional argument is left out. *)
Definition get_css_rules (component format : string) (brand : option string)
  : Envelope :=
  tryCatch
    (cssRules <- getProp designStandards "cssRules" ;;
     componentRules <- getProp cssRules component ;;
     if negb (truthy componentRules) then
       Return (failure ("Error: Unknown component " ++ dquote ++ component ++ dquote))
     else if (format =? "css")
             && existsb (String.eqb component) ["buttons"; "cards"; "modals"] then
       let prefix := match brand with
                     | Some (String _ _ as brand) => brand
                     | _ => "component"
                     end in
       css <- generateComponentCSS component componentRules prefix ;;
       Return (ok css)
     else Return (ok (stringify componentRules))).

(** [component.charAt(0).toUpperCase() + component.slice(1)] *)
Definition capitalize (component : string) : string :=
  match component with
  | "" => ""
  | String c rest => String (upperChar c) rest
  end.

(** What the loop over the components appends for one component. *)
Definition componentSection (brand : string) (css : string) (component : string)
  : Result string :=
  cssRules <- getProp designStandards "cssRules" ;;
  rules <- getProp cssRules component ;;
  if truthy rules then
    let css := css ++ "/* ========== " ++ capitalize component ++ " ========== */" ++ nl in
    block <- generateComponentCSS component rules brand ;;
    let css := css ++ block in
    Return (css ++ nl)
  else Return css.

(** [now] is [new Date().toISOString()]; [includeComponents] is [None]
    when the optional argument is left out. *)
Definition generate_css (now : string) (brand : string)
           (includeComponents : option (list string)) : Envelope :=
  tryCatch
    (brands <- getProp designStandards "brands" ;;
     brandData <- getProp brands brand ;;
     if negb (truthy brandData) then
       Return (failure ("Error: Unknown brand " ++ dquote ++ brand ++ dquote))
     else
       let css := "/* " ++ toString (prop brandData "name") ++ " - Complete Stylesheet */" ++ nl in
       let css := css ++ "/* Generated: " ++ now ++ " */" ++ nl ++ nl in
       let css := css ++ "/* ========== CSS Variables ========== */" ++ nl in
       let css := css ++ ":root {" ++ nl in
       css <- (if truthy (prop brandData "css")
               then variableLines (prop brandData "css") css
               else Return css) ;;
       let css := css ++ "}" ++ nl ++ nl in
       let components := match includeComponents with
                         | Some l => l
                         | None => ["buttons"; "cards"; "modals"]
                         end in
       css <- forEach components (componentSection brand) css ;;
       Return (ok css)).

Definition showValue (v : JSValue) : string :=
  if typeofObject v then stringify v else toString v.

Definition search_design_standards (query : string) (caseSensitive : bool)
           (maxResults : Z) : Envelope :=
  tryCatch
    (results <- searchDesignStandards query caseSensitive designStandards ;;
     let limitedResults := slice0 results maxResults in
     let hasMore := (maxResults <? Z.of_nat (length results))%Z in
     if Nat.eqb (length results) 0 then
       Return (ok ("No results found for " ++ dquote ++ query ++ dquote))
     else
       let output :=
         "Found " ++ showNat (length results) ++ " result" ++ plural (length results)
         ++ " for " ++ dquote ++ query ++ dquote
         ++ (if hasMore then " (showing first " ++ showZ maxResults ++ ")" else "")
         ++ ":" ++ nl ++ nl
         ++ join (nl ++ nl ++ "---" ++ nl ++ nl)
              (map (fun r => "Path: " ++ path r ++ nl ++ "Value: " ++ showValue (value r))
                   limitedResults) in
       Return (ok output)).

Definition get_usage_guidelines (category : string) : Envelope :=
  tryCatch
    (usage <- (if category =? "all" then getProp designStandards "usage"
               else
                 allUsage <- getProp designStandards "usage" ;;
                 guideline <- getProp allUsage category ;;
                 Return (JObject [(category, guideline)])) ;;
     Return (ok (stringify usage))).

End Tools.

End DesignStandards.

Import EventInfo DesignStandards.

(** * The vocabulary of the properties *)

(** A matcher consumes input when what it leaves is shorter than what it
    was given. *)
Definition consuming (m : string -> option string) : Prop :=
  forall s rest, m s = Some rest -> String.length rest < String.length s.

(** A network that serves one sitemap of three pages at every address. *)
Definition sampleNetwork : Network :=
  fun _ => Http true 200
    "<urlset><url><loc>https://www.pmc.org/Event-Day</loc></url><url><loc>https://www.pmc.org/ride</loc></url><url><loc>https://www.pmc.org/event/2026</loc></url></urlset>".

Definition pmcSite : Site :=
  {| name := "Pan-Mass Challenge"; baseUrl := "https://www.pmc.org";
     sitemapPath := "/sitemap.xml" |}.

(** A node of the document: the path of keys from the root, the last of
    which is the node's key, and the node's value. *)
Record Node := { nodePath : list string; nodeKey : string; nodeValue : JSValue }.

(** The depth-first traversal of a document in the order of its
    properties: every property is listed before the properties below it,
    and those before its next sibling.  Arrays are entered with their
    indices as keys, strings are not entered. *)
Fixpoint traverse (obj : JSValue) (path : list string) {struct obj} : list Node :=
  match obj with
  | JObject props =>
      (fix each (props : list (string * JSValue)) : list Node :=
         match props with
         | [] => []
         | (key, value) :: rest =>
             let here := (path ++ [key])%list in
             ({| nodePath := here; nodeKey := key; nodeValue := value |}
                :: match value with
                   | JArray _ | JObject _ => traverse value here
                   | _ => []
                   end
                ++ each rest)%list
         end) props
  | JArray items =>
      (fix each (i : nat) (items : list JSValue) : list Node :=
         match items with
         | [] => []
         | value :: rest =>
             let here := (path ++ [showNat i])%list in
             ({| nodePath := here; nodeKey := showNat i; nodeValue := value |}
                :: match value with
                   | JArray _ | JObject _ => traverse value here
                   | _ => []
                   end
                ++ each (S i) rest)%list
         end) 0%nat items
  | JString _ =>
      map (fun kv => {| nodePath := (path ++ [fst kv])%list; nodeKey := fst kv;
                        nodeValue := snd kv |})
          (ownEntries obj)
  | _ => []
  end.

(** The record of a node. *)
Definition recordOf (n : Node) : Match :=
  {| path := join "." (nodePath n); key := nodeKey n; value := nodeValue n |}.

(** The records one node contributes: one when the key or path check
    succeeds, and one more when the value check succeeds. *)
Definition nodeRecords (query : string) (caseSensitive : bool) (n : Node) : list Match :=
  ((if keyCheck query caseSensitive (join "." (nodePath n)) (nodeKey n)
    then [recordOf n] else [])
   ++ (if valueCheck query caseSensitive (nodeValue n) then [recordOf n] else []))%list.

(** A small design-token document: one brand, two components (one of them
    with a hover rule) and one usage category. *)
Definition sampleStandards : JSValue :=
  JObject
    [ ("brands",
       JObject
         [ ("pmc",
            JObject
              [ ("name", JString "Pan-Mass Challenge");
                ("shortName", JString "PMC");
                ("css",
                 JObject
                   [ ("colors", JObject [ ("--primary", JString "#AB292C");
                                          ("--accent", JString "var(--primary)") ]);
                     ("fontFiles", JObject [ ("regular", JString "font.woff2") ]) ]) ]) ]);
      ("cssRules",
       JObject
         [ ("buttons",
            JObject [ ("base", JObject [ ("css", JString "padding: 8px 16px;") ]);
                      ("hover", JObject [ ("css", JString "opacity: 0.9;") ]) ]);
           ("cards", JObject [ ("css", JString "border-radius: 4px;") ]) ]);
      ("usage", JObject [ ("colors", JString "Use the brand colors for actions.") ]) ].



Definition isLt (c : ascii) : bool := Ascii.eqb c "<".



Definition isAmp (c : ascii) : bool := Ascii.eqb c "&".

(** In [s] every white-space character is a single space that no
    white-space character precedes; [afterSpace] tells whether one
    precedes [s] itself. *)
Fixpoint spaced (afterSpace : bool) (s : string) : bool :=
  match s with
  | "" => true
  | String c s' =>
      if isSpace c then Ascii.eqb c " " && negb afterSpace && spaced true s'
      else spaced false s'
  end.

(** A text begins tidily when its first character is not white space. *)
Definition tidyStart (s : string) : bool :=
  match s with
  | "" => true
  | String c _ => negb (isSpace c)
  end.

Fixpoint appendAll (l : list string) : string :=
  match l with
  | [] => ""
  | x :: rest => x ++ appendAll rest
  end.

(** The declarations of the main block of a component. *)
Definition ruleBody (rules : JSValue) : string :=
  appendAll (map (fun kv => ruleLine (fst kv) (snd kv)) (ownEntries rules)).

(** The declarations of the hover block of a component. *)
Definition hoverBody (hover : JSValue) : string :=
  match prop hover "css" with
  | JString s => "  " ++ s ++ nl
  | _ =>
      if typeofObject hover
      then appendAll (map (fun kv => hoverLine (fst kv) (snd kv)) (ownEntries hover))
      else ""
  end.

(** The text of a component: its block, and its hover block when
    [rules.hover] is truthy. *)
Definition componentText (brand component : string) (rules : JSValue) : string :=
  "." ++ brand ++ "-" ++ component ++ " {" ++ nl ++ ruleBody rules ++ "}" ++ nl
  ++ (if truthy (prop rules "hover")
      then nl ++ "." ++ brand ++ "-" ++ component ++ ":hover {" ++ nl
           ++ hoverBody (prop rules "hover") ++ "}" ++ nl
      else "").

(** What [generate_css] writes for a requested component: nothing when
    [cssRules] has no truthy entry for it. *)
Definition sectionText (designStandards : JSValue) (brand component : string) : string :=
  let rules := prop (prop designStandards "cssRules") component in
  if truthy rules
  then "/* ========== " ++ capitalize component ++ " ========== */" ++ nl
       ++ componentText brand component rules ++ nl
  else "".

(** A document whose buttons carry a [hover] key without a rule. *)
Definition hoverlessStandards : JSValue :=
  JObject
    [ ("brands", JObject [ ("pmc", JObject [ ("name", JString "Pan-Mass Challenge") ]) ]);
      ("cssRules",
       JObject [ ("buttons", JObject [ ("css", JString "padding: 0;");
                                       ("hover", JNull) ]) ]) ].

(** What [parseSitemap] may return for [xml]: [u] stands in [xml] between
    the markers, on one line, and holds no closing marker. *)
Definition locText (xml u : string) : Prop :=
  (exists before after, xml = before ++ "<loc>" ++ u ++ "</loc>" ++ after)
  /\ anyChar isLineTerminator u = false
  /\ includes u "</loc>" = false.

(** A text ends tidily when its last character is not white space. *)
Fixpoint tidyEnd (s : string) : bool :=
  match s with
  | "" => true
  | String c "" => negb (isSpace c)
  | String _ s' => tidyEnd s'
  end.

(** A white-space character other than the plain space. *)
Definition isOddSpace (c : ascii) : bool := isSpace c && negb (Ascii.eqb c " ").

(** [p] occurs in [s], letters compared without regard to case ([p] is in
    lower case). *)
Fixpoint includesCI (s p : string) : bool :=
  startsWithCI s p ||
  match s with
  | "" => false
  | String _ s' => includesCI s' p
  end.

(** The text does not begin with a word character. *)
Definition noWordStart (s : string) : bool :=
  match s with
  | "" => true
  | String c _ => negb (isWordChar c)
  end.

(** A capital letter A-Z or the character [<]. *)
Definition isCapitalOrLt (c : ascii) : bool := between 65 90 c || isLt c.

(** The string leaves of a token tree, in depth-first order of the
    properties: a string value with its own key; objects (not arrays)
    are entered and their keys dropped; every other value is left out.
    An array or a string can only be met at the root, where its own
    entries are taken. *)
Fixpoint stringLeaves (obj : JSValue) {struct obj} : list (string * string) :=
  match obj with
  | JObject props =>
      (fix each (props : list (string * JSValue)) : list (string * string) :=
         match props with
         | [] => []
         | (key, value) :: rest =>
             (match value with
              | JObject _ => stringLeaves value
              | JString s => [(key, s)]
              | _ => []
              end ++ each rest)%list
         end) props
  | JArray items =>
      (fix each (i : nat) (items : list JSValue) : list (string * string) :=
         match items with
         | [] => []
         | value :: rest =>
             (match value with
              | JObject _ => stringLeaves value
              | JString s => [(showNat i, s)]
              | _ => []
              end ++ each (S i) rest)%list
         end) 0%nat items
  | JString _ =>
      flat_map (fun kv => match snd kv with
                          | JString s => [(fst kv, s)]
                          | _ => []
                          end)
               (ownEntries obj)
  | _ => []
  end.

(** [undefined] or [null]. *)
Definition isNullish (v : JSValue) : bool :=
  match v with
  | JUndefined | JNull => true
  | _ => false
  end.

(** The components [get_css_rules] renders as CSS. *)
Definition rendersAsCss (component : string) : bool :=
  existsb (String.eqb component) ["buttons"; "cards"; "modals"].

(** Every category but [fontFiles]. *)
Definition withoutFontFiles (props : list (string * JSValue)) : list (string * JSValue) :=
  filter (fun kv => negb (fst kv =? "fontFiles")) props.

(** The value with the members of every object in the order written. *)
Fixpoint asDeclared (j : Json) : JSValue :=
  match j with
  | JsonNull => JNull
  | JsonBool b => JBool b
  | JsonNumber n => JNumber n
  | JsonString s => JString s
  | JsonArray items => JArray (map asDeclared items)
  | JsonObject members => JObject (map (fun '(k, v) => (k, asDeclared v)) members)
  end.

Fixpoint distinct (keys : list string) : bool :=
  match keys with
  | [] => true
  | k :: rest => negb (existsb (String.eqb k) rest) && distinct rest
  end.

(** No object of the text has a key that is an array index or a key
    written twice. *)
Fixpoint plainKeys (j : Json) : bool :=
  match j with
  | JsonArray items => forallb plainKeys items
  | JsonObject members =>
      distinct (map fst members)
      && forallb (fun '(k, v) => negb (isArrayIndex k) && plainKeys v) members
  | _ => true
  end.

(** A document whose spacing scale has a key that is an array index,
    written after a named key. *)
Definition scaleStandards : Json :=
  JsonObject
    [ ("brands",
       JsonObject
         [ ("pmc",
            JsonObject
              [ ("name", JsonString "Pan-Mass Challenge");
                ("css", JsonObject [ ("spacing", JsonObject [ ("base", JsonString "4px");
                                                              ("2", JsonString "8px") ]) ]) ]) ]) ].

Definition isGt (c : ascii) : bool := Ascii.eqb c ">".

(** The expression [m] matches at some position of [s]. *)
Fixpoint matchesSomewhere (m : string -> option string) (s : string) : bool :=
  match m s with
  | Some _ => true
  | None =>
      match s with
      | "" => false
      | String _ s' => matchesSomewhere m s'
      end
  end.

(** The text holds a match of the tag expression: a [<], then at least one
    character other than [>], then a [>]. *)
Definition hasTag (s : string) : bool := matchesSomewhere tag s.

(** The text holds one of the six entities the extractor decodes. *)
Definition hasEntity (s : string) : bool :=
  existsb (includes s) ["&nbsp;"; "&amp;"; "&lt;"; "&gt;"; "&quot;"; "&#39;"].

(** The declaration of one variable. *)
Definition declarationLine (kv : string * JSValue) : string :=
  "  " ++ fst kv ++ ": " ++ toString (snd kv) ++ ";" ++ nl.

(** The lines of one category: its comment, its declarations and an empty
    line. *)
Definition categoryText (kv : string * JSValue) : string :=
  "  /* " ++ fst kv ++ " */" ++ nl
  ++ appendAll (map declarationLine (ownEntries (snd kv))) ++ nl.

(** The body of the [:root] block: the categories in their order,
    [fontFiles] left out. *)
Definition variablesText (cssData : JSValue) : string :=
  appendAll (map categoryText (withoutFontFiles (ownEntries cssData))).

(** The names every object inherits from [Object.prototype]. *)
Definition inheritedName (key : string) : bool :=
  existsb (String.eqb key)
    [ "constructor"; "__proto__"; "hasOwnProperty"; "isPrototypeOf";
      "propertyIsEnumerable"; "toLocaleString"; "toString"; "valueOf";
      "__defineGetter__"; "__defineSetter__"; "__lookupGetter__"; "__lookupSetter__" ].

(** From [v], following the keys [keys] through own properties, one
    arrives at [w]. *)
Fixpoint descends (v : JSValue) (keys : list string) (w : JSValue) : Prop :=
  match keys with
  | [] => v = w
  | k :: rest => exists child, In (k, child) (ownEntries v) /\ descends child rest w
  end.

(** * Properties *)

(** ** Strings *)

Module StringFacts.

Lemma append_assoc (a b c : string) : (a ++ b) ++ c = a ++ b ++ c.
Proof. induction a as [|x a IH]; simpl; [reflexivity | now rewrite IH]. Qed.

Lemma append_nil_r (a : string) : a ++ "" = a.
Proof. induction a as [|x a IH]; simpl; [reflexivity | now rewrite IH]. Qed.

Lemma length_append (a b : string) :
  String.length (a ++ b) = String.length a + String.length b.
Proof. induction a as [|x a IH]; simpl; [reflexivity | now rewrite IH]. Qed.

Lemma drop_append (a b : string) : drop (String.length a) (a ++ b) = b.
Proof. induction a as [|x a IH]; simpl; [now destruct b | exact IH]. Qed.

Lemma startsWith_append (p r : string) : startsWith (p ++ r) p = true.
Proof.
  induction p as [|x p IH]; simpl; [reflexivity|].
  now rewrite Ascii.eqb_refl, IH.
Qed.

Lemma startsWith_inv (s p : string) :
  startsWith s p = true -> s = p ++ drop (String.length p) s.
Proof.
  revert s; induction p as [|x p IH]; intros s H; simpl in *.
  - now destruct s.
  - destruct s as [|a s]; [discriminate|].
    apply andb_true_iff in H as [Hc Hs].
    apply Ascii.eqb_eq in Hc; subst a.
    simpl. f_equal. now apply IH.
Qed.

Lemma includes_unfold (s t : string) :
  includes s t =
  startsWith s t || match s with "" => false | String _ s' => includes s' t end.
Proof. now destruct s. Qed.

(** [includes] decides containment as a substring. *)
Lemma includes_spec (s t : string) :
  includes s t = true <-> exists a b, s = a ++ t ++ b.
Proof.
  split.
  - induction s as [|c s IH]; rewrite includes_unfold; intros H.
    + rewrite orb_false_r in H. apply startsWith_inv in H.
      exists "", (drop (String.length t) ""). exact H.
    + apply orb_true_iff in H as [H|H].
      * apply startsWith_inv in H.
        exists "", (drop (String.length t) (String c s)). exact H.
      * destruct (IH H) as (a & b & ->). now exists (String c a), b.
  - intros (a & b & ->). induction a as [|c a IH].
    + simpl. rewrite includes_unfold, startsWith_append. reflexivity.
    + simpl. now rewrite IH, orb_true_r.
Qed.

Lemma toLowerCase_append (a b : string) :
  toLowerCase (a ++ b) = toLowerCase a ++ toLowerCase b.
Proof. induction a as [|x a IH]; simpl; [reflexivity | now rewrite IH]. Qed.

Lemma lowerChar_idempotent (c : ascii) : lowerChar (lowerChar c) = lowerChar c.
Proof. destruct c as [[] [] [] [] [] [] [] []]; reflexivity. Qed.

Lemma anyChar_append (p : ascii -> bool) (a b : string) :
  anyChar p (a ++ b) = anyChar p a || anyChar p b.
Proof.
  induction a as [|x a IH]; simpl; [reflexivity|].
  now rewrite IH, orb_assoc.
Qed.

(** No upper-case code unit is left in a lower-cased string. *)
Lemma anyChar_isUpper_toLowerCase (s : string) :
  anyChar isUpper (toLowerCase s) = false.
Proof.
  induction s as [|c s IH]; simpl; [reflexivity|].
  rewrite IH, orb_false_r. unfold isUpper.
  now rewrite lowerChar_idempotent, Ascii.eqb_refl.
Qed.

End StringFacts.

Import StringFacts.

(** Brings both sides of an equation between concatenations to the same
    right-nested form. *)
Ltac append_normal :=
  repeat (progress (rewrite ?append_assoc, ?append_nil_r; cbn [append]));
  try reflexivity.

(** ** The fuel of the scanning loops

    [parseSitemap] and [replace] give their loops one unit of fuel more
    than the input has characters.  Every match consumes at least one
    character, so the loops end before the fuel does: any larger amount of
    fuel gives the same result. *)

Module Fuel.

Lemma length_drop (n : nat) (s : string) :
  String.length (drop n s) = String.length s - n.
Proof.
  revert s. induction n as [|n IH]; intros [|c s]; cbn; try reflexivity.
  apply IH.
Qed.

Lemma locBody_shorter (s t rest : string) :
  locBody s = Some (t, rest) -> String.length rest < String.length s.
Proof.
  revert t rest. induction s as [|c s IH]; intros t rest; [discriminate|].
  change (locBody (String c s)) with
    (if startsWith (String c s) "</loc>" then Some ("", drop 6 (String c s))
     else if isLineTerminator c then None
          else match locBody s with
               | Some (t, rest) => Some (String c t, rest)
               | None => None
               end).
  destruct (startsWith (String c s) "</loc>").
  - intros H. assert (Hr : rest = drop 6 (String c s)) by congruence.
    rewrite Hr, length_drop. cbn. lia.
  - destruct (isLineTerminator c); [discriminate|].
    destruct (locBody s) as [[t' rest']|] eqn:E; [|discriminate].
    intros H. assert (Hr : rest = rest') by congruence. subst rest'.
    specialize (IH t' rest eq_refl). cbn. lia.
Qed.

Lemma execLoc_shorter (s t rest : string) :
  execLoc s = Some (t, rest) -> String.length rest < String.length s.
Proof.
  unfold execLoc. destruct (startsWith s "<loc>"); [|discriminate].
  intros H. apply locBody_shorter in H. rewrite length_drop in H. lia.
Qed.

Lemma parseLoop_fuel (fuel1 : nat) :
  forall (fuel2 : nat) (s : string) (urls : list string),
    String.length s < fuel1 -> String.length s < fuel2 ->
    parseLoop fuel1 s urls = parseLoop fuel2 s urls.
Proof.
  induction fuel1 as [|fuel1 IH]; intros [|fuel2] s urls H1 H2; try lia.
  cbn [parseLoop]. destruct (execLoc s) as [[t rest]|] eqn:E.
  - apply execLoc_shorter in E. apply IH; lia.
  - destruct s as [|c s]; [reflexivity|]. cbn in H1, H2. apply IH; lia.
Qed.

Lemma replaceAll_fuel (m : string -> option string) (rep : string) :
  consuming m ->
  forall (fuel1 fuel2 : nat) (s : string),
    String.length s < fuel1 -> String.length s < fuel2 ->
    replaceAll m rep fuel1 s = replaceAll m rep fuel2 s.
Proof.
  intros Hm. induction fuel1 as [|fuel1 IH]; intros [|fuel2] s H1 H2; try lia.
  cbn [replaceAll]. destruct (m s) as [rest|] eqn:E.
  - apply Hm in E. f_equal. apply IH; lia.
  - destruct s as [|c s]; [reflexivity|]. cbn in H1, H2. f_equal. apply IH; lia.
Qed.

Lemma literal_consuming (c : ascii) (p : string) : consuming (literal (String c p)).
Proof.
  intros s rest. unfold literal.
  destruct (startsWith s (String c p)) eqn:E; [|discriminate].
  intros H.
  assert (Hr : rest = drop (String.length (String c p)) s) by congruence.
  rewrite Hr, length_drop.
  destruct s; [discriminate|]. cbn. lia.
Qed.

Lemma afterGt_shorter (s rest : string) :
  afterGt s = Some rest -> String.length rest < String.length s.
Proof.
  induction s as [|c s IH]; [discriminate|]. cbn.
  destruct (Ascii.eqb c ">").
  - intros H. injection H as <-. lia.
  - intros H. apply IH in H. lia.
Qed.

Lemma tag_consuming : consuming tag.
Proof.
  intros [|a [|b s]] rest; try discriminate. unfold tag.
  destruct (Ascii.eqb a "<" && negb (Ascii.eqb b ">")); [|discriminate].
  intros H. apply afterGt_shorter in H. cbn. lia.
Qed.

Lemma afterClose_shorter (close s rest : string) :
  afterClose close s = Some rest -> String.length rest <= String.length s.
Proof.
  induction s as [|c s IH].
  - cbn [afterClose]. destruct (startsWithCI "" close); [|discriminate].
    intros H. assert (Hr : rest = drop (String.length close) "") by congruence.
    rewrite Hr, length_drop. lia.
  - cbn [afterClose]. destruct (startsWithCI (String c s) close).
    + intros H.
      assert (Hr : rest = drop (String.length close) (String c s)) by congruence.
      rewrite Hr, length_drop. lia.
    + intros H. apply IH in H. cbn. lia.
Qed.

Lemma block_consuming (tagName : string) : consuming (block tagName).
Proof.
  intros s rest. unfold block.
  destruct (startsWithCI s ("<" ++ tagName)) eqn:E; [|discriminate].
  destruct s as [|a s]; [discriminate|].
  destruct (drop (S (String.length tagName)) (String a s)) as [|c r] eqn:D;
    [discriminate|].
  destruct (isWordChar c); [discriminate|].
  intros H. apply afterClose_shorter in H.
  pose proof (length_drop (S (String.length tagName)) (String a s)) as L.
  rewrite D in L. cbn in L |- *. cbn in H. lia.
Qed.

End Fuel.

(** ** The site tools *)

Section SiteTools.

Variable net : Network.
Variables (site : string) (eventSite : Site) (status : Z) (xml : string).
Hypothesis known : lookupSite EVENT_SITES site = Some eventSite.
Hypothesis fetched : net (sitemapUrl eventSite) = Http true status xml.

Lemma list_all_events_fetched (limit : Z) :
  list_all_events net site limit =
  let urls := parseSitemap xml in
  let limitedUrls := if (0 <? limit)%Z then slice0 urls limit else urls in
  let hasMore := (0 <? limit)%Z && (limit <? Z.of_nat (length urls))%Z in
  ok (name eventSite ++ " - Found " ++ showNat (length urls) ++ " total URLs"
      ++ (if hasMore then " (showing first " ++ showZ limit ++ ")" else "")
      ++ ":" ++ nl ++ nl ++ join nl limitedUrls
      ++ (if hasMore
          then nl ++ nl ++ "... and "
               ++ showZ (Z.of_nat (length urls) - limit) ++ " more"
          else "")).
Proof.
  unfold list_all_events. rewrite known. unfold fetchContent.
  rewrite fetched. reflexivity.
Qed.

Lemma search_events_fetched (pattern : string) (caseInsensitive : bool) :
  search_events net site pattern caseInsensitive =
  let matches := searchMatches (parseSitemap xml) pattern caseInsensitive in
  if Nat.eqb (length matches) 0 then
    ok ("No URLs found matching pattern " ++ dquote ++ pattern ++ dquote
        ++ " in the " ++ name eventSite ++ " sitemap.")
  else
    ok ("Found " ++ showNat (length matches) ++ " URL"
        ++ plural (length matches) ++ " matching " ++ dquote ++ pattern
        ++ dquote ++ " in " ++ name eventSite ++ ":" ++ nl ++ nl
        ++ join nl matches).
Proof.
  unfold search_events. rewrite known. unfold fetchContent.
  rewrite fetched. simpl. now destruct (Nat.eqb _ 0).
Qed.

End SiteTools.

(** C4: [list_all_events] on a sitemap of T URLs: with limit 0 the text
    lists all T URLs; with a limit k, 0 < k < T, it lists exactly the first
    k URLs in sitemap order and ends with the notice that T - k more exist;
    with a limit k >= T it lists all T URLs and carries no notice. *)
Theorem list_all_events_limit :
  forall (net : Network) (site : string) (eventSite : Site) (status : Z) (xml : string),
    lookupSite EVENT_SITES site = Some eventSite ->
    net (sitemapUrl eventSite) = Http true status xml ->
    let urls := parseSitemap xml in
    let total := Z.of_nat (length urls) in
    let all := ok (name eventSite ++ " - Found " ++ showNat (length urls)
                   ++ " total URLs:" ++ nl ++ nl ++ join nl urls) in
    list_all_events net site 0 = all
    /\ (forall k : Z, (0 < k < total)%Z ->
          length (firstn (Z.to_nat k) urls) = Z.to_nat k
          /\ list_all_events net site k =
             ok (name eventSite ++ " - Found " ++ showNat (length urls)
                 ++ " total URLs (showing first " ++ showZ k ++ "):" ++ nl ++ nl
                 ++ join nl (firstn (Z.to_nat k) urls)
                 ++ nl ++ nl ++ "... and " ++ showZ (total - k) ++ " more"))
    /\ (forall k : Z, (total <= k)%Z -> list_all_events net site k = all).
Proof.
  intros net site eventSite status xml known fetched urls total all.
  split; [|split].
  - rewrite (list_all_events_fetched net site eventSite status xml known fetched).
    cbn zeta. change (0 <? 0)%Z with false. cbn iota. simpl andb. cbn iota.
    unfold all, urls. now rewrite append_nil_r.
  - intros k Hk. split; [apply firstn_length_le; subst total; lia|].
    rewrite (list_all_events_fetched net site eventSite status xml known fetched).
    cbn zeta. fold urls. fold total.
    destruct (Z.ltb_spec 0 k) as [_|]; [|lia].
    destruct (Z.ltb_spec k total) as [_|]; [|lia].
    simpl andb. cbn iota. unfold slice0.
    destruct (Z.ltb_spec k 0) as [|_]; [lia|].
    rewrite !append_assoc. reflexivity.
  - intros k Hk.
    rewrite (list_all_events_fetched net site eventSite status xml known fetched).
    cbn zeta. fold urls. fold total.
    destruct (Z.ltb_spec k total) as [|_]; [lia|].
    rewrite andb_false_r. cbn iota.
    assert (Hl : (if (0 <? k)%Z then slice0 urls k else urls) = urls).
    { destruct (Z.ltb_spec 0 k) as [Hpos|]; [|reflexivity].
      unfold slice0. destruct (Z.ltb_spec k 0) as [|_]; [lia|].
      apply firstn_all2. subst total. lia. }
    rewrite Hl. unfold all. now rewrite append_nil_r.
Qed.

Lemma list_all_events_limit_witness :
  lookupSite EVENT_SITES "pmc" = Some pmcSite
  /\ sampleNetwork (sitemapUrl pmcSite)
     = Http true 200
         "<urlset><url><loc>https://www.pmc.org/Event-Day</loc></url><url><loc>https://www.pmc.org/ride</loc></url><url><loc>https://www.pmc.org/event/2026</loc></url></urlset>"
  /\ list_all_events sampleNetwork "pmc" 2 =
     ok ("Pan-Mass Challenge - Found 3 total URLs (showing first 2):" ++ nl ++ nl
         ++ "https://www.pmc.org/Event-Day" ++ nl ++ "https://www.pmc.org/ride"
         ++ nl ++ nl ++ "... and 1 more").
Proof.
  split; [reflexivity|]. split; [reflexivity|].
  pose proof (list_all_events_limit sampleNetwork "pmc" pmcSite 200 _
                eq_refl eq_refl) as H.
  cbv zeta in H. destruct H as (_ & H & _).
  destruct (H 2%Z) as [_ H2]; [vm_compute; split; reflexivity|].
  rewrite H2. vm_compute. reflexivity.
Defined.

(** C10: [list_all_events] treats every limit less than or equal to zero
    as unlimited: all the URLs of the sitemap are listed and the text
    carries no notice of omitted URLs. *)
Theorem list_all_events_nonpositive_limit :
  forall (net : Network) (site : string) (eventSite : Site) (status : Z) (xml : string)
         (limit : Z),
    lookupSite EVENT_SITES site = Some eventSite ->
    net (sitemapUrl eventSite) = Http true status xml ->
    (limit <= 0)%Z ->
    list_all_events net site limit =
    ok (name eventSite ++ " - Found " ++ showNat (length (parseSitemap xml))
        ++ " total URLs:" ++ nl ++ nl ++ join nl (parseSitemap xml)).
Proof.
  intros net site eventSite status xml limit known fetched Hle.
  rewrite (list_all_events_fetched net site eventSite status xml known fetched).
  cbn zeta. destruct (Z.ltb_spec 0 limit) as [|_]; [lia|].
  simpl andb. cbn iota. now rewrite append_nil_r.
Qed.

Lemma list_all_events_nonpositive_limit_witness :
  (-5 <= 0)%Z
  /\ list_all_events sampleNetwork "pmc" (-5) =
     ok ("Pan-Mass Challenge - Found 3 total URLs:" ++ nl ++ nl
         ++ "https://www.pmc.org/Event-Day" ++ nl ++ "https://www.pmc.org/ride"
         ++ nl ++ "https://www.pmc.org/event/2026").
Proof.
  split; [lia|].
  rewrite (list_all_events_nonpositive_limit sampleNetwork "pmc" pmcSite 200 _ (-5)
             eq_refl eq_refl); [vm_compute; reflexivity | lia].
Defined.

Lemma In_searchMatches (urls : list string) (pattern : string) (ci : bool) (url : string) :
  In url (searchMatches urls pattern ci) <->
  In url urls
  /\ exists a b, (if ci then toLowerCase url else url)
                 = a ++ (if ci then toLowerCase pattern else pattern) ++ b.
Proof.
  unfold searchMatches. rewrite filter_In, includes_spec. reflexivity.
Qed.

(** C7: [search_events] retains exactly the URLs of the sitemap, in sitemap
    order, that contain the pattern as a plain substring, the URL and the
    pattern both lower-cased first when [caseInsensitive] is true; so a
    case-insensitive search for "EVENT" retains every URL that contains
    "event". *)
Theorem search_events_retains :
  forall (net : Network) (site : string) (eventSite : Site) (status : Z)
         (xml pattern : string) (caseInsensitive : bool),
    lookupSite EVENT_SITES site = Some eventSite ->
    net (sitemapUrl eventSite) = Http true status xml ->
    let urls := parseSitemap xml in
    let folded := fun s : string => if caseInsensitive then toLowerCase s else s in
    let matches := filter (fun url => includes (folded url) (folded pattern)) urls in
    (forall url, In url matches <->
                 In url urls /\ exists a b, folded url = a ++ folded pattern ++ b)
    /\ search_events net site pattern caseInsensitive =
       (if Nat.eqb (length matches) 0 then
          ok ("No URLs found matching pattern " ++ dquote ++ pattern ++ dquote
              ++ " in the " ++ name eventSite ++ " sitemap.")
        else
          ok ("Found " ++ showNat (length matches) ++ " URL"
              ++ plural (length matches) ++ " matching " ++ dquote ++ pattern
              ++ dquote ++ " in " ++ name eventSite ++ ":" ++ nl ++ nl
              ++ join nl matches))
    /\ (forall url, In url urls -> (exists a b, url = a ++ "event" ++ b) ->
                    In url (searchMatches urls "EVENT" true)).
Proof.
  intros net site eventSite status xml pattern ci known fetched urls folded matches.
  assert (Hm : matches = searchMatches urls pattern ci).
  { unfold matches, searchMatches, folded. now destruct ci. }
  split; [|split].
  - intros url. rewrite Hm. apply In_searchMatches.
  - rewrite (search_events_fetched net site eventSite status xml known fetched).
    cbn zeta. fold urls. now rewrite <- Hm.
  - intros url Hin (a & b & Hab). apply In_searchMatches. split; [exact Hin|].
    exists (toLowerCase a), (toLowerCase b).
    rewrite Hab, !toLowerCase_append. reflexivity.
Qed.

Lemma search_events_retains_witness :
  lookupSite EVENT_SITES "pmc" = Some pmcSite
  /\ search_events sampleNetwork "pmc" "EVENT" true =
     ok ("Found 2 URLs matching " ++ dquote ++ "EVENT" ++ dquote
         ++ " in Pan-Mass Challenge:" ++ nl ++ nl
         ++ "https://www.pmc.org/Event-Day" ++ nl ++ "https://www.pmc.org/event/2026").
Proof.
  split; [reflexivity|].
  pose proof (search_events_retains sampleNetwork "pmc" pmcSite 200 _ "EVENT" true
                eq_refl eq_refl) as H.
  cbv zeta in H. destruct H as (_ & H & _).
  rewrite H. vm_compute. reflexivity.
Defined.

(** ** The search of the design standards *)

(** Induction on values, with the hypothesis for every item of an array
    and every property of an object. *)
Lemma JSValue_induction (P : JSValue -> Prop) :
  P JUndefined -> P JNull -> (forall b, P (JBool b)) -> (forall n, P (JNumber n)) ->
  (forall s, P (JString s)) ->
  (forall items, Forall P items -> P (JArray items)) ->
  (forall props, Forall (fun kv => P (snd kv)) props -> P (JObject props)) ->
  forall v, P v.
Proof.
  intros HU HN HB HZ HS HA HO. fix IH 1.
  intros [ | | b | n | s | items | props].
  - exact HU.
  - exact HN.
  - apply HB.
  - apply HZ.
  - apply HS.
  - apply HA. induction items as [|v items IHitems]; constructor.
    + apply IH.
    + exact IHitems.
  - apply HO. induction props as [|[k v] props IHprops]; constructor.
    + apply IH.
    + exact IHprops.
Qed.

Lemma visit_nodeRecords (query : string) (cs : bool) (currentPath : list string)
      (key : string) (value : JSValue) (results : list Match) :
  visit query cs currentPath key value results =
  (results ++ nodeRecords query cs
     {| nodePath := currentPath; nodeKey := key; nodeValue := value |})%list.
Proof.
  unfold visit, nodeRecords, recordOf. cbn [nodePath nodeKey nodeValue].
  destruct (keyCheck query cs (join "." currentPath) key);
    destruct (valueCheck query cs value); cbn [app];
    rewrite ?app_nil_r, <- ?app_assoc; reflexivity.
Qed.

Lemma searchObject_traverse (query : string) (cs : bool) (obj : JSValue) :
  forall (path : list string) (results : list Match),
    searchObject query cs obj path results =
    (results ++ flat_map (nodeRecords query cs) (traverse obj path))%list.
Proof.
  induction obj as [ | | b | n | s | items IH | props IH] using JSValue_induction;
    intros path results; try (cbn; now rewrite app_nil_r).
  - (* a string at the root *)
    cbn [searchObject traverse]. generalize (ownEntries (JString s)). intros l.
    revert results. induction l as [|kv l IHl]; intros results; cbn.
    + now rewrite app_nil_r.
    + rewrite IHl, visit_nodeRecords, <- app_assoc. reflexivity.
  - (* an array *)
    cbn [searchObject traverse]. generalize 0%nat. revert results.
    induction IH as [|value items Hv _ IHitems]; intros results i.
    + cbn. now rewrite app_nil_r.
    + cbn zeta. rewrite IHitems. cbn [flat_map].
      rewrite flat_map_app, visit_nodeRecords.
      destruct value; rewrite ?Hv; cbn [flat_map app];
        rewrite ?app_nil_r, <- ?app_assoc; reflexivity.
  - (* an object *)
    cbn [searchObject traverse]. revert results.
    induction IH as [|[key value] props Hv _ IHprops]; intros results.
    + cbn. now rewrite app_nil_r.
    + cbn zeta. rewrite IHprops. cbn [flat_map].
      rewrite flat_map_app, visit_nodeRecords. cbn [snd] in Hv.
      destruct value; rewrite ?Hv; cbn [flat_map app];
        rewrite ?app_nil_r, <- ?app_assoc; reflexivity.
Qed.

(** *** The order of the properties *)

Lemma Json_induction (P : Json -> Prop) :
  P JsonNull -> (forall b, P (JsonBool b)) -> (forall n, P (JsonNumber n)) ->
  (forall s, P (JsonString s)) ->
  (forall items, Forall P items -> P (JsonArray items)) ->
  (forall members, Forall (fun kv => P (snd kv)) members -> P (JsonObject members)) ->
  forall j, P j.
Proof.
  intros HN HB HZ HS HA HO. fix IH 1.
  intros [ | b | n | s | items | members].
  - exact HN.
  - apply HB.
  - apply HZ.
  - apply HS.
  - apply HA. induction items as [|v items IHitems]; constructor.
    + apply IH.
    + exact IHitems.
  - apply HO. induction members as [|[k v] members IHmembers]; constructor.
    + apply IH.
    + exact IHmembers.
Qed.

Lemma distinct_cons (k : string) (rest : list string) :
  distinct (k :: rest) = true -> ~ In k rest /\ distinct rest = true.
Proof.
  cbn [distinct]. intros H. apply andb_true_iff in H as [Hk Hrest].
  split; [|exact Hrest]. intros Hin. apply negb_true_iff in Hk.
  assert (E : existsb (String.eqb k) rest = true).
  { apply existsb_exists. exists k. split; [exact Hin|apply String.eqb_refl]. }
  congruence.
Qed.

Lemma define_fresh (props : list (string * JSValue)) (key : string) (v : JSValue) :
  ~ In key (map fst props) -> define props key v = (props ++ [(key, v)])%list.
Proof.
  induction props as [|[k old] props IH]; intros Hfresh; [reflexivity|].
  cbn [define map fst In app] in Hfresh |- *.
  destruct (k =? key) eqn:E.
  - apply String.eqb_eq in E. tauto.
  - rewrite IH by tauto. reflexivity.
Qed.

Lemma defineAll_distinct (members : list (string * JSValue)) :
  forall acc : list (string * JSValue),
    distinct (map fst members) = true ->
    (forall k, In k (map fst members) -> ~ In k (map fst acc)) ->
    fold_left (fun props kv => define props (fst kv) (snd kv)) members acc
    = (acc ++ members)%list.
Proof.
  induction members as [|[k v] members IH]; intros acc Hd Hfresh.
  - cbn. now rewrite app_nil_r.
  - cbn [map fst] in Hd. apply distinct_cons in Hd as [Hk Hd].
    cbn [fold_left fst snd]. rewrite define_fresh by (apply Hfresh; now left).
    rewrite IH; [now rewrite <- app_assoc|exact Hd|].
    intros k' Hin. rewrite map_app, in_app_iff. cbn [map fst In].
    intros [H|[H|[]]].
    + apply (Hfresh k'); [now right|exact H].
    + subst k'. exact (Hk Hin).
Qed.

Lemma ownPropertyOrder_plain (props : list (string * JSValue)) :
  forallb (fun kv => negb (isArrayIndex (fst kv))) props = true ->
  ownPropertyOrder props = props.
Proof.
  intros H. unfold ownPropertyOrder.
  assert (Hi : indexProps props = []).
  { induction props as [|kv props IH]; [reflexivity|].
    cbn [forallb] in H. apply andb_true_iff in H as [Hk H].
    cbn [indexProps]. unfold isArrayIndex in Hk.
    destruct (arrayIndex (fst kv)); [discriminate|]. exact (IH H). }
  rewrite Hi. cbn [fold_right map app].
  induction props as [|kv props IH]; [reflexivity|].
  cbn [forallb] in H. apply andb_true_iff in H as [Hk H].
  cbn [filter indexProps] in Hi |- *. rewrite Hk. f_equal. apply IH; [exact H|].
  unfold isArrayIndex in Hk. destruct (arrayIndex (fst kv)); [discriminate|exact Hi].
Qed.

(** A text without array-index keys and without repeated keys is parsed
    into the value that has its members in the order written. *)
Lemma ofJson_plain (j : Json) : plainKeys j = true -> ofJson j = asDeclared j.
Proof.
  induction j as [ | b | n | s | items IH | members IH] using Json_induction;
    intros Hplain; try reflexivity.
  - cbn [ofJson asDeclared plainKeys] in Hplain |- *. f_equal.
    induction IH as [|v items Hv _ IHitems]; [reflexivity|].
    cbn [forallb] in Hplain. apply andb_true_iff in Hplain as [H1 H2].
    cbn [map]. now rewrite (Hv H1), (IHitems H2).
  - cbn [ofJson asDeclared plainKeys] in Hplain |- *.
    apply andb_true_iff in Hplain as [Hd Hplain].
    assert (Hmap : map (fun '(k, v) => (k, ofJson v)) members
                   = map (fun '(k, v) => (k, asDeclared v)) members).
    { clear Hd. induction IH as [|[k v] members Hv _ IHmembers]; [reflexivity|].
      cbn [forallb] in Hplain. apply andb_true_iff in Hplain as [H1 H2].
      apply andb_true_iff in H1 as [_ H1]. cbn [snd] in Hv.
      cbn [map]. now rewrite (Hv H1), (IHmembers H2). }
    rewrite Hmap.
    assert (Hkeys : map fst (map (fun '(k, v) => (k, asDeclared v)) members)
                    = map fst members).
    { rewrite map_map. apply map_ext. now intros [k v]. }
    rewrite defineAll_distinct; [|now rewrite Hkeys|intros k _ []].
    cbn [app]. f_equal. apply ownPropertyOrder_plain.
    clear IH Hd Hmap Hkeys. induction members as [|[k v] members IHm]; [reflexivity|].
    cbn [forallb] in Hplain. apply andb_true_iff in Hplain as [H1 H2].
    apply andb_true_iff in H1 as [H1 _].
    cbn [map forallb fst]. now rewrite H1, (IHm H2).
Qed.

(** C1, as the code has it: the records of [searchDesignStandards] on the
    parsed document are the records of its nodes in depth-first order from
    the root, the properties of every object in the order [Object.entries]
    yields them: the keys that are array indices first, in ascending
    order, and then the other keys in the order written.  When no object
    of the text has an array-index key or a repeated key, that is the
    order of declaration.  A node contributes at most two records, and a
    node on which both the key or path check and the value check succeed
    contributes two separate, equal records that follow one another. *)
Theorem searchDesignStandards_records_in_entries_order :
  forall (query : string) (caseSensitive : bool) (members : list (string * Json)),
    let designStandards := ofJson (JsonObject members) in
    searchDesignStandards query caseSensitive designStandards =
    Return (flat_map (nodeRecords query caseSensitive) (traverse designStandards []))
    /\ (plainKeys (JsonObject members) = true ->
        searchDesignStandards query caseSensitive designStandards =
        Return (flat_map (nodeRecords query caseSensitive)
                         (traverse (asDeclared (JsonObject members)) [])))
    /\ (forall n : Node,
          keyCheck query caseSensitive (join "." (nodePath n)) (nodeKey n) = true ->
          valueCheck query caseSensitive (nodeValue n) = true ->
          nodeRecords query caseSensitive n = [recordOf n; recordOf n])
    /\ (forall n : Node, length (nodeRecords query caseSensitive n) <= 2).
Proof.
  intros query cs members doc.
  assert (Hflat : searchDesignStandards query cs doc =
                  Return (flat_map (nodeRecords query cs) (traverse doc []))).
  { unfold doc. cbn [ofJson searchDesignStandards]. now rewrite searchObject_traverse. }
  split; [exact Hflat|]. split; [|split].
  - intros Hplain. rewrite Hflat. unfold doc. now rewrite (ofJson_plain _ Hplain).
  - intros n Hk Hv. unfold nodeRecords. now rewrite Hk, Hv.
  - intros n. unfold nodeRecords.
    destruct (keyCheck _ _ _ _); destruct (valueCheck _ _ _); cbn; lia.
Qed.

Lemma searchDesignStandards_records_in_entries_order_witness :
  plainKeys (JsonObject [ ("brands", JsonObject [ ("pmc", JsonObject [ ("name", JsonString "PMC") ]) ]);
                          ("usage", JsonObject [ ("colors", JsonString "Brand colors.");
                                                 ("spacing", JsonString "Use the scale.") ]) ])
  = true
  /\ searchDesignStandards "colors" false
       (ofJson (JsonObject [ ("brands", JsonObject [ ("pmc", JsonObject [ ("name", JsonString "PMC") ]) ]);
                             ("usage", JsonObject [ ("colors", JsonString "Brand colors.");
                                                    ("spacing", JsonString "Use the scale.") ]) ]))
     = Return [ {| path := "usage.colors"; key := "colors"; value := JString "Brand colors." |};
                {| path := "usage.colors"; key := "colors"; value := JString "Brand colors." |} ].
Proof.
  split; [reflexivity|].
  rewrite (proj1 (proj2 (searchDesignStandards_records_in_entries_order "colors" false
                           [ ("brands", JsonObject [ ("pmc", JsonObject [ ("name", JsonString "PMC") ]) ]);
                             ("usage", JsonObject [ ("colors", JsonString "Brand colors.");
                                                    ("spacing", JsonString "Use the scale.") ]) ]))
                 eq_refl).
  vm_compute. reflexivity.
Defined.

(** C1 as stated fails: a key that is an array index is visited before
    the keys written before it, so the records do not come in the order
    of declaration. *)
Lemma searchDesignStandards_not_in_declaration_order :
  searchDesignStandards "px" false (ofJson scaleStandards)
  = Return [ {| path := "brands.pmc.css.spacing.2"; key := "2"; value := JString "8px" |};
             {| path := "brands.pmc.css.spacing.base"; key := "base";
                value := JString "4px" |} ]
  /\ flat_map (nodeRecords "px" false) (traverse (asDeclared scaleStandards) [])
     = [ {| path := "brands.pmc.css.spacing.base"; key := "base"; value := JString "4px" |};
         {| path := "brands.pmc.css.spacing.2"; key := "2"; value := JString "8px" |} ].
Proof. split; vm_compute; reflexivity. Qed.

(** C9: in a case-sensitive search whose query holds an upper-case
    character, the containment test on the lower-cased dotted path never
    succeeds; the first record of a node is then written exactly when the
    key itself contains the query, and the records of a node are decided
    by that test and the value test alone. *)
Theorem caseSensitive_path_check_silent :
  forall (query pathString key : string),
    anyChar isUpper query = true ->
    includes (toLowerCase pathString) (searchTerm query true) = false
    /\ keyCheck query true pathString key = includes key query
    /\ forall n : Node,
         nodeRecords query true n =
         ((if includes (nodeKey n) query then [recordOf n] else [])
          ++ (if valueCheck query true (nodeValue n) then [recordOf n] else []))%list.
Proof.
  intros query pathString key Hup.
  assert (Hpath : forall p, includes (toLowerCase p) query = false).
  { intros p. destruct (includes (toLowerCase p) query) eqn:E; [|reflexivity].
    apply includes_spec in E as (a & b & E).
    pose proof (anyChar_isUpper_toLowerCase p) as Hlow.
    rewrite E, !anyChar_append, Hup, orb_true_l, orb_true_r in Hlow. discriminate. }
  split; [|split].
  - apply Hpath.
  - unfold keyCheck, searchTerm. now rewrite Hpath, orb_false_r.
  - intros n. unfold nodeRecords, keyCheck, searchTerm.
    now rewrite Hpath, orb_false_r.
Qed.

Lemma caseSensitive_path_check_silent_witness :
  anyChar isUpper "Colors" = true
  /\ includes (toLowerCase "usage.Colors") (searchTerm "Colors" true) = false
  /\ keyCheck "Colors" true "usage.Colors" "Colors" = true
  /\ keyCheck "Colors" true "usage.colors" "colors" = false.
Proof.
  destruct (caseSensitive_path_check_silent "Colors" "usage.Colors" "Colors" eq_refl)
    as (H1 & H2 & _).
  destruct (caseSensitive_path_check_silent "Colors" "usage.colors" "colors" eq_refl)
    as (_ & H3 & _).
  split; [reflexivity|]. split; [exact H1|]. split.
  - rewrite H2. reflexivity.
  - rewrite H3. reflexivity.
Defined.

(** ** Empty results *)

(** C6: a search that runs to its end and finds nothing answers with an
    envelope that tells so and whose [isError] is not set: [search_events]
    when no URL of the fetched sitemap matches, [search_design_standards]
    when the search of the document gives no record. *)
Theorem zero_results_not_error :
  (forall (net : Network) (site : string) (eventSite : Site) (status : Z)
          (xml pattern : string) (caseInsensitive : bool),
      lookupSite EVENT_SITES site = Some eventSite ->
      net (sitemapUrl eventSite) = Http true status xml ->
      searchMatches (parseSitemap xml) pattern caseInsensitive = [] ->
      search_events net site pattern caseInsensitive =
      {| text := "No URLs found matching pattern " ++ dquote ++ pattern ++ dquote
                 ++ " in the " ++ name eventSite ++ " sitemap.";
         isError := false |})
  /\ (forall (stringify : JSValue -> string) (designStandards : JSValue)
             (query : string) (caseSensitive : bool) (maxResults : Z),
         searchDesignStandards query caseSensitive designStandards = Return [] ->
         search_design_standards stringify designStandards query caseSensitive maxResults =
         {| text := "No results found for " ++ dquote ++ query ++ dquote;
            isError := false |}).
Proof.
  split.
  - intros net site eventSite status xml pattern ci known fetched Hnone.
    rewrite (search_events_fetched net site eventSite status xml known fetched).
    cbn zeta. rewrite Hnone. reflexivity.
  - intros stringify doc query cs maxResults Hnone.
    unfold search_design_standards. rewrite Hnone. reflexivity.
Qed.

Lemma zero_results_not_error_witness :
  searchMatches (parseSitemap "<loc>https://www.pmc.org/ride</loc>") "volunteer" true = []
  /\ search_events (fun _ => Http true 200%Z "<loc>https://www.pmc.org/ride</loc>")
                   "pmc" "volunteer" true =
     {| text := "No URLs found matching pattern " ++ dquote ++ "volunteer" ++ dquote
                ++ " in the Pan-Mass Challenge sitemap.";
        isError := false |}
  /\ searchDesignStandards "nonexistent-xyz" false sampleStandards = Return []
  /\ search_design_standards (fun _ => "") sampleStandards "nonexistent-xyz" false 20%Z =
     {| text := "No results found for " ++ dquote ++ "nonexistent-xyz" ++ dquote;
        isError := false |}.
Proof.
  destruct zero_results_not_error as [Hsite Hdesign].
  split; [reflexivity|]. split.
  - exact (Hsite (fun _ => Http true 200 "<loc>https://www.pmc.org/ride</loc>")
                 "pmc" pmcSite 200%Z _ "volunteer" true eq_refl eq_refl eq_refl).
  - split; [reflexivity|].
    exact (Hdesign (fun _ => "") sampleStandards "nonexistent-xyz" false 20%Z eq_refl).
Defined.

(** ** The sitemap parser *)

Lemma locBody_cons (c : ascii) (s : string) :
  locBody (String c s) =
  if startsWith (String c s) "</loc>" then Some ("", drop 6 (String c s))
  else if isLineTerminator c then None
       else match locBody s with
            | Some (t, rest) => Some (String c t, rest)
            | None => None
            end.
Proof. reflexivity. Qed.












(** ** The text extractor *)

(** A replacement leaves alone a text in which no match can begin. *)
Lemma replaceAll_untouched (m : string -> option string) (rep : string)
      (p : ascii -> bool) :
  m "" = None ->
  (forall c r, p c = false -> m (String c r) = None) ->
  forall (s : string) (fuel : nat),
    anyChar p s = false -> replaceAll m rep fuel s = s.
Proof.
  intros Hnil Hcons. induction s as [|c s IH]; intros [|fuel] Hs; try reflexivity.
  - cbn. now rewrite Hnil.
  - cbn [anyChar] in Hs. apply orb_false_iff in Hs as [Hc Hs].
    cbn [replaceAll]. rewrite (Hcons c s Hc). f_equal. now apply IH.
Qed.

Lemma fold_case_not_lt (c : ascii) :
  isLt c = false ->
  Ascii.eqb (if between 65 90 c then lowerChar c else c) "<" = false.
Proof.
  destruct c as [[] [] [] [] [] [] [] []]; intros H; try reflexivity; exact H.
Qed.

Lemma block_untouched (tagName rep s : string) :
  anyChar isLt s = false -> replace (block tagName) rep s = s.
Proof.
  intros Hs. unfold replace.
  apply (replaceAll_untouched (block tagName) rep isLt); [reflexivity| |exact Hs].
  intros c r Hc. unfold block. cbn [append startsWithCI].
  now rewrite (fold_case_not_lt c Hc).
Qed.

Lemma tag_untouched (rep s : string) :
  anyChar isLt s = false -> replace tag rep s = s.
Proof.
  intros Hs. unfold replace.
  apply (replaceAll_untouched tag rep isLt); [reflexivity| |exact Hs].
  intros c [|b r] Hc; [reflexivity|]. unfold tag, isLt in *. now rewrite Hc.
Qed.

Lemma entity_untouched (entity rep s : string) :
  anyChar isAmp s = false -> replace (literal (String "&" entity)) rep s = s.
Proof.
  intros Hs. unfold replace.
  apply (replaceAll_untouched (literal (String "&" entity)) rep isAmp);
    [reflexivity| |exact Hs].
  intros c r Hc. unfold literal, isAmp in *. cbn [startsWith]. now rewrite Hc.
Qed.

Lemma spaced_collapse (inRun : bool) (s : string) : spaced inRun (collapse inRun s) = true.
Proof.
  revert inRun. induction s as [|c s IH]; intros inRun; [reflexivity|].
  cbn [collapse]. destruct (isSpace c) eqn:Hc.
  - destruct inRun; [apply IH|]. cbn. apply IH.
  - cbn [spaced]. rewrite Hc. apply IH.
Qed.

Lemma spaced_weaken (afterSpace : bool) (s : string) :
  spaced afterSpace s = true -> spaced false s = true.
Proof.
  destruct s as [|c s]; [reflexivity|]. cbn [spaced].
  destruct (isSpace c); [|trivial].
  intros H. apply andb_true_iff in H as [H Hs]. apply andb_true_iff in H as [H _].
  now rewrite H, Hs.
Qed.

Lemma spaced_trimStart (afterSpace : bool) (s : string) :
  spaced afterSpace s = true -> spaced false (trimStart s) = true.
Proof.
  revert afterSpace. induction s as [|c s IH]; intros afterSpace H; [reflexivity|].
  cbn [trimStart]. destruct (isSpace c) eqn:Hc.
  - cbn [spaced] in H. rewrite Hc in H. apply andb_true_iff in H as [_ H].
    now apply (IH true).
  - now apply (spaced_weaken afterSpace).
Qed.

Lemma spaced_trimEnd (afterSpace : bool) (s : string) :
  spaced afterSpace s = true -> spaced afterSpace (trimEnd s) = true.
Proof.
  revert afterSpace. induction s as [|c s IH]; intros afterSpace H; [reflexivity|].
  cbn [trimEnd]. cbn [spaced] in H. destruct (isSpace c) eqn:Hc.
  - apply andb_true_iff in H as [H Hs]. specialize (IH true Hs).
    destruct (trimEnd s) as [|d t]; [reflexivity|].
    cbn [spaced] in IH |- *. now rewrite Hc, H, IH.
  - specialize (IH false H).
    destruct (trimEnd s) as [|d t]; cbn [spaced] in IH |- *; now rewrite Hc.
Qed.

Lemma collapse_spaced (afterSpace : bool) (s : string) :
  spaced afterSpace s = true -> collapse afterSpace s = s.
Proof.
  revert afterSpace. induction s as [|c s IH]; intros afterSpace H; [reflexivity|].
  cbn [spaced] in H. cbn [collapse]. destruct (isSpace c).
  - apply andb_true_iff in H as [H Hs]. apply andb_true_iff in H as [Hc Ha].
    apply Ascii.eqb_eq in Hc. apply negb_true_iff in Ha. subst.
    now rewrite (IH true Hs).
  - now rewrite (IH false H).
Qed.

Lemma tidyStart_trimStart (s : string) : tidyStart (trimStart s) = true.
Proof.
  induction s as [|c s IH]; [reflexivity|]. cbn [trimStart].
  destruct (isSpace c) eqn:Hc; [exact IH|]. cbn. now rewrite Hc.
Qed.

Lemma tidyStart_trimEnd (s : string) : tidyStart s = true -> tidyStart (trimEnd s) = true.
Proof.
  destruct s as [|c s]; [reflexivity|]. cbn [tidyStart trimEnd]. intros Hc.
  apply negb_true_iff in Hc.
  destruct (trimEnd s); rewrite ?Hc; cbn [tidyStart]; now rewrite Hc.
Qed.

Lemma trimStart_tidy (s : string) : tidyStart s = true -> trimStart s = s.
Proof.
  destruct s as [|c s]; [reflexivity|]. cbn. intros Hc.
  apply negb_true_iff in Hc. now rewrite Hc.
Qed.

Lemma trimEnd_idempotent (s : string) : trimEnd (trimEnd s) = trimEnd s.
Proof.
  induction s as [|c s IH]; [reflexivity|]. cbn [trimEnd].
  destruct (trimEnd s) as [|d t] eqn:E.
  - destruct (isSpace c) eqn:Hc; [reflexivity|]. cbn. now rewrite Hc.
  - cbn [trimEnd] in IH |- *. now rewrite IH.
Qed.

(** White-space normalisation does nothing to a text it has produced. *)
Lemma normalise_idempotent (s : string) :
  trim (collapse false (trim (collapse false s))) = trim (collapse false s).
Proof.
  set (t := trim (collapse false s)).
  assert (Hsp : spaced false t = true).
  { unfold t, trim. apply spaced_trimEnd. apply (spaced_trimStart false).
    apply spaced_collapse. }
  assert (Hst : tidyStart t = true).
  { unfold t, trim. apply tidyStart_trimEnd, tidyStart_trimStart. }
  rewrite (collapse_spaced false t Hsp). unfold trim at 1.
  rewrite (trimStart_tidy t Hst). unfold t, trim. apply trimEnd_idempotent.
Qed.

Lemma replaceAll_unmatched (m : string -> option string) (rep : string) (s : string) :
  matchesSomewhere m s = false ->
  forall fuel : nat, replaceAll m rep fuel s = s.
Proof.
  induction s as [|c s IH]; intros H [|fuel]; try reflexivity;
    cbn [matchesSomewhere] in H; cbn [replaceAll];
    destruct (m _); try discriminate; [reflexivity|].
  now rewrite (IH H).
Qed.

Lemma literal_unmatched (p s : string) :
  includes s p = false -> matchesSomewhere (literal p) s = false.
Proof.
  induction s as [|c s IH]; rewrite includes_unfold; intros H;
    apply orb_false_iff in H as [Hhead H];
    cbn [matchesSomewhere]; unfold literal at 1; rewrite Hhead; [reflexivity|].
  exact (IH H).
Qed.

Lemma fold_case_is_lt (c : ascii) :
  Ascii.eqb (if between 65 90 c then lowerChar c else c) "<" = true -> c = "<"%char.
Proof.
  destruct c as [[] [] [] [] [] [] [] []]; intros H; try reflexivity; discriminate.
Qed.

Lemma fold_case_is_gt (c : ascii) :
  Ascii.eqb (if between 65 90 c then lowerChar c else c) ">" = true -> c = ">"%char.
Proof.
  destruct c as [[] [] [] [] [] [] [] []]; intros H; try reflexivity; discriminate.
Qed.

Lemma startsWithCI_has_gt (p : string) :
  anyChar isGt p = true ->
  forall r : string, startsWithCI r p = true -> anyChar isGt r = true.
Proof.
  induction p as [|b p IH]; intros Hp r H; [discriminate|].
  destruct r as [|c r]; [discriminate|].
  cbn [startsWithCI] in H. apply andb_true_iff in H as [Hc H].
  cbn [anyChar] in Hp |- *. apply orb_true_iff in Hp as [Hb|Hp].
  - unfold isGt in Hb. apply Ascii.eqb_eq in Hb. subst b.
    apply fold_case_is_gt in Hc. subst c. reflexivity.
  - rewrite (IH Hp r H). apply orb_true_r.
Qed.

Lemma afterClose_has_gt (close : string) :
  anyChar isGt close = true ->
  forall r rest : string, afterClose close r = Some rest -> anyChar isGt r = true.
Proof.
  intros Hclose. induction r as [|c r IH]; intros rest H.
  - cbn [afterClose] in H. destruct (startsWithCI "" close) eqn:E; [|discriminate].
    exact (startsWithCI_has_gt close Hclose "" E).
  - cbn [afterClose] in H. destruct (startsWithCI (String c r) close) eqn:E.
    + exact (startsWithCI_has_gt close Hclose _ E).
    + cbn [anyChar]. rewrite (IH rest H). apply orb_true_r.
Qed.

Lemma anyChar_drop (f : ascii -> bool) (n : nat) :
  forall s : string, anyChar f (drop n s) = true -> anyChar f s = true.
Proof.
  induction n as [|n IH]; intros [|c s] H; try exact H.
  cbn [drop] in H. cbn [anyChar]. rewrite (IH s H). apply orb_true_r.
Qed.

Lemma afterGt_found (s : string) :
  anyChar isGt s = true -> exists rest, afterGt s = Some rest.
Proof.
  induction s as [|c s IH]; intros H; [discriminate|].
  cbn [anyChar] in H. cbn [afterGt]. unfold isGt in H at 1.
  destruct (Ascii.eqb c ">"); [now eexists|]. exact (IH H).
Qed.

(** Where the expression of a [script] or [style] element matches, the
    tag expression matches too: the opener is a [<] followed by a letter,
    and the closing tag brings a [>]. *)
Lemma block_is_tag (first : ascii) (others s rest : string) :
  Ascii.eqb first ">" = false ->
  block (String first others) s = Some rest ->
  exists rest', tag s = Some rest'.
Proof.
  intros Hfirst. unfold block.
  destruct (startsWithCI s ("<" ++ String first others)) eqn:Hopen; [|discriminate].
  destruct s as [|c0 [|b s2]]; cbn [append startsWithCI] in Hopen;
    try discriminate; try (now rewrite andb_false_r in Hopen).
  apply andb_true_iff in Hopen as [H0 Hopen]. apply andb_true_iff in Hopen as [Hb _].
  apply fold_case_is_lt in H0. subst c0.
  assert (Hnot : Ascii.eqb b ">" = false).
  { destruct (Ascii.eqb b ">") eqn:E; [|reflexivity].
    apply Ascii.eqb_eq in E. subst b.
    change (between 65 90 ">") with false in Hb. cbn iota in Hb.
    rewrite Ascii.eqb_sym in Hb. congruence. }
  change (drop (S (String.length (String first others))) (String "<" (String b s2)))
    with (drop (String.length others) s2).
  destruct (drop (String.length others) s2) as [|c r] eqn:Hr; [discriminate|].
  destruct (isWordChar c); [discriminate|]. intros Hclose.
  apply afterClose_has_gt in Hclose.
  - rewrite <- Hr in Hclose. apply anyChar_drop in Hclose.
    unfold tag. rewrite Hnot. cbn. exact (afterGt_found s2 Hclose).
  - cbn [append anyChar]. rewrite anyChar_append. cbn. now rewrite !orb_true_r.
Qed.

Lemma block_unmatched (first : ascii) (others s : string) :
  Ascii.eqb first ">" = false ->
  hasTag s = false -> matchesSomewhere (block (String first others)) s = false.
Proof.
  intros Hfirst. unfold hasTag. induction s as [|c s IH]; intros H.
  - reflexivity.
  - cbn [matchesSomewhere] in H |- *.
    destruct (tag (String c s)) eqn:Htag; [discriminate|].
    destruct (block (String first others) (String c s)) as [rest|] eqn:Hblock.
    + destruct (block_is_tag first others _ rest Hfirst Hblock) as [rest' E]. congruence.
    + exact (IH H).
Qed.

(** C3, as the code has it: [extractTextFromHtml] applied to its own
    output gives that output again whenever the output holds no match of
    the tag expression and none of the six entities; the output may hold
    [<] and [&] otherwise. *)
Theorem extractTextFromHtml_idempotent_without_markup :
  forall html : string,
    hasTag (extractTextFromHtml html) = false ->
    hasEntity (extractTextFromHtml html) = false ->
    extractTextFromHtml (extractTextFromHtml html) = extractTextFromHtml html.
Proof.
  intros html Htag Hentity.
  set (t := extractTextFromHtml html) in *.
  unfold hasEntity in Hentity. cbn [existsb] in Hentity.
  repeat (apply orb_false_iff in Hentity as [? Hentity]).
  assert (Hlit : forall p rep, includes t p = false -> replace (literal p) rep t = t).
  { intros p rep Hp. unfold replace. apply replaceAll_unmatched.
    now apply literal_unmatched. }
  assert (Hblock : forall first others,
             Ascii.eqb first ">" = false ->
             replace (block (String first others)) "" t = t).
  { intros first others Hf. unfold replace. apply replaceAll_unmatched.
    now apply block_unmatched. }
  unfold extractTextFromHtml at 1. cbv zeta.
  rewrite (Hblock "s"%char "cript" eq_refl), (Hblock "s"%char "tyle" eq_refl).
  replace (replace tag " " t) with t
    by (symmetry; unfold replace; apply replaceAll_unmatched; exact Htag).
  rewrite !Hlit by assumption.
  unfold t, extractTextFromHtml. cbv zeta. apply normalise_idempotent.
Qed.

Lemma extractTextFromHtml_idempotent_without_markup_witness :
  extractTextFromHtml "<p>Q&amp;A: Terms &amp; Conditions, if a &lt; b</p>"
  = "Q&A: Terms & Conditions, if a < b"
  /\ hasTag "Q&A: Terms & Conditions, if a < b" = false
  /\ hasEntity "Q&A: Terms & Conditions, if a < b" = false
  /\ extractTextFromHtml
       (extractTextFromHtml "<p>Q&amp;A: Terms &amp; Conditions, if a &lt; b</p>")
     = extractTextFromHtml "<p>Q&amp;A: Terms &amp; Conditions, if a &lt; b</p>".
Proof.
  split; [vm_compute; reflexivity|]. split; [vm_compute; reflexivity|].
  split; [vm_compute; reflexivity|].
  apply extractTextFromHtml_idempotent_without_markup; vm_compute; reflexivity.
Defined.

(** C3 as stated fails: decoding the entities of escaped markup gives
    text that a second run takes for a tag and removes. *)
Lemma extractTextFromHtml_not_idempotent :
  extractTextFromHtml "&lt;b&gt;" = "<b>"
  /\ extractTextFromHtml (extractTextFromHtml "&lt;b&gt;") = ""
  /\ extractTextFromHtml (extractTextFromHtml "&lt;b&gt;")
     <> extractTextFromHtml "&lt;b&gt;".
Proof.
  split; [vm_compute; reflexivity|]. split; [vm_compute; reflexivity|].
  vm_compute. discriminate.
Qed.

(** ** The CSS renderer *)

Lemma fold_left_append {A : Type} (f : A -> string) (l : list A) (init : string) :
  fold_left (fun css x => css ++ f x) l init = init ++ appendAll (map f l).
Proof.
  revert init. induction l as [|x l IH]; intros init; cbn.
  - now rewrite append_nil_r.
  - now rewrite IH, append_assoc.
Qed.

Lemma getProp_Return (v : JSValue) (key : string) (x : JSValue) :
  getProp v key = Return x -> x = prop v key.
Proof. destruct v; cbn; congruence. Qed.

Lemma entries_Return (v : JSValue) (props : list (string * JSValue)) :
  entries v = Return props -> props = ownEntries v.
Proof. destruct v; cbn; congruence. Qed.

Lemma generateComponentCSS_text (component : string) (rules : JSValue)
      (brand css : string) :
  generateComponentCSS component rules brand = Return css ->
  css = componentText brand component rules.
Proof.
  unfold generateComponentCSS, componentText, ruleBody, hoverBody.
  destruct (entries rules) as [props|] eqn:Hprops; [|discriminate].
  apply entries_Return in Hprops. subst props. cbn [bind].
  destruct (getProp rules "hover") as [hover|] eqn:Hhover; [|discriminate].
  apply getProp_Return in Hhover. subst hover. cbn [bind].
  rewrite (fold_left_append (fun kv => ruleLine (fst kv) (snd kv))).
  destruct (truthy (prop rules "hover")).
  - intros H. injection H as <-.
    destruct (prop (prop rules "hover") "css");
      try (destruct (typeofObject (prop rules "hover"));
           rewrite ?(fold_left_append (fun kv => hoverLine (fst kv) (snd kv))));
      append_normal.
  - intros H. injection H as <-. append_normal.
Qed.

Lemma componentSection_text (designStandards : JSValue) (brand css component css' : string) :
  componentSection designStandards brand css component = Return css' ->
  css' = css ++ sectionText designStandards brand component.
Proof.
  unfold componentSection, sectionText.
  destruct (getProp designStandards "cssRules") as [cssRules|] eqn:H1; [|discriminate].
  apply getProp_Return in H1. subst cssRules. cbn [bind].
  destruct (getProp (prop designStandards "cssRules") component) as [rules|] eqn:H2;
    [|discriminate].
  apply getProp_Return in H2. subst rules. cbn [bind]. cbv zeta.
  destruct (truthy (prop (prop designStandards "cssRules") component)).
  - destruct (generateComponentCSS _ _ _) as [block|] eqn:Hb; [|discriminate].
    apply generateComponentCSS_text in Hb. subst block. cbn [bind].
    intros H. injection H as <-. append_normal.
  - intros H. injection H as <-. append_normal.
Qed.

Lemma forEach_componentSection (designStandards : JSValue) (brand : string)
      (components : list string) :
  forall css css' : string,
    forEach components (componentSection designStandards brand) css = Return css' ->
    css' = css ++ appendAll (map (sectionText designStandards brand) components).
Proof.
  induction components as [|c components IH]; intros css css' H; cbn in H |- *.
  - injection H as <-. now rewrite append_nil_r.
  - destruct (componentSection designStandards brand css c) as [css1|] eqn:Hc;
      [|discriminate].
    apply componentSection_text in Hc. subst css1. cbn [bind] in H.
    apply IH in H. subst css'. now rewrite append_assoc.
Qed.

Lemma forEach_categories (categories : list (string * JSValue)) :
  forall css css' : string,
    forEach categories
      (fun css kv =>
         let '(category, variables) := kv in
         if category =? "fontFiles" then Return css
         else
           let css := css ++ "  /* " ++ category ++ " */" ++ nl in
           vars <- entries variables ;;
           let css := fold_left (fun css kv => css ++ "  " ++ fst kv ++ ": "
                                                ++ toString (snd kv) ++ ";" ++ nl)
                                vars css in
           Return (css ++ nl))
      css = Return css' ->
    css' = css ++ appendAll (map categoryText (withoutFontFiles categories)).
Proof.
  induction categories as [|[category variables] categories IH]; intros css css' H.
  - cbn in H |- *. injection H as <-. now rewrite append_nil_r.
  - cbn [forEach] in H. unfold withoutFontFiles. cbn [filter fst].
    fold (withoutFontFiles categories).
    destruct (category =? "fontFiles") eqn:E; cbn [negb bind] in H |- *.
    + exact (IH _ _ H).
    + destruct (entries variables) as [vars|] eqn:Hvars; [|discriminate].
      apply entries_Return in Hvars. subst vars. cbn [bind] in H.
      apply IH in H. subst css'. cbn [map appendAll].
      rewrite (fold_left_append (fun kv => "  " ++ fst kv ++ ": " ++ toString (snd kv)
                                             ++ ";" ++ nl)).
      unfold categoryText, declarationLine. cbn [fst snd]. append_normal.
Qed.

Lemma variableLines_text (cssData : JSValue) (css css' : string) :
  variableLines cssData css = Return css' -> css' = css ++ variablesText cssData.
Proof.
  unfold variableLines, variablesText.
  destruct (entries cssData) as [categories|] eqn:E; [|discriminate].
  apply entries_Return in E. subst categories. cbn [bind].
  apply forEach_categories.
Qed.

(** C8, as the code has it: the text of a successful [generate_css]
    is a header, the block [:root { ... }] with the variables of the
    brand (every category but [fontFiles], in their order), and then, for
    the requested components in the order given (buttons, cards and modals
    when none are given), one section per component for which [cssRules]
    has a truthy entry, and nothing for the others; a section is the title
    comment and the block [.{brand}-{component} { ... }], followed by the
    block [.{brand}-{component}:hover { ... }] exactly when [rules.hover]
    is truthy.  The text is that and nothing more. *)
Theorem generate_css_blocks :
  forall (designStandards : JSValue) (now brand : string)
         (includeComponents : option (list string)),
    isError (generate_css designStandards now brand includeComponents) = false ->
    let components := match includeComponents with
                      | Some l => l
                      | None => ["buttons"; "cards"; "modals"]
                      end in
    let brandData := prop (prop designStandards "brands") brand in
    text (generate_css designStandards now brand includeComponents) =
    "/* " ++ toString (prop brandData "name") ++ " - Complete Stylesheet */" ++ nl
    ++ "/* Generated: " ++ now ++ " */" ++ nl ++ nl
    ++ "/* ========== CSS Variables ========== */" ++ nl
    ++ ":root {" ++ nl
    ++ (if truthy (prop brandData "css") then variablesText (prop brandData "css") else "")
    ++ "}" ++ nl ++ nl
    ++ appendAll
         (map (fun component =>
                 let rules := prop (prop designStandards "cssRules") component in
                 if truthy rules
                 then "/* ========== " ++ capitalize component ++ " ========== */" ++ nl
                      ++ "." ++ brand ++ "-" ++ component ++ " {" ++ nl
                      ++ ruleBody rules ++ "}" ++ nl
                      ++ (if truthy (prop rules "hover")
                          then nl ++ "." ++ brand ++ "-" ++ component ++ ":hover {" ++ nl
                               ++ hoverBody (prop rules "hover") ++ "}" ++ nl
                          else "")
                      ++ nl
                 else "")
              components).
Proof.
  intros doc now brand includeComponents Hok components brandData.
  assert (Hmap : map (sectionText doc brand) components =
                 map (fun component =>
                   let rules := prop (prop doc "cssRules") component in
                   if truthy rules
                   then "/* ========== " ++ capitalize component ++ " ========== */" ++ nl
                        ++ "." ++ brand ++ "-" ++ component ++ " {" ++ nl
                        ++ ruleBody rules ++ "}" ++ nl
                        ++ (if truthy (prop rules "hover")
                            then nl ++ "." ++ brand ++ "-" ++ component ++ ":hover {" ++ nl
                                 ++ hoverBody (prop rules "hover") ++ "}" ++ nl
                            else "")
                        ++ nl
                   else "") components).
  { apply map_ext. intros c. unfold sectionText, componentText. cbv zeta.
    destruct (truthy (prop (prop doc "cssRules") c)); [|reflexivity].
    destruct (truthy (prop (prop (prop doc "cssRules") c) "hover")); append_normal. }
  rewrite <- Hmap. clear Hmap.
  unfold generate_css in Hok |- *. fold components in Hok |- *.
  destruct (getProp doc "brands") as [brands|] eqn:H1; [|discriminate].
  apply getProp_Return in H1. subst brands. cbn [bind] in Hok |- *.
  destruct (getProp (prop doc "brands") brand) as [data|] eqn:H2; [|discriminate].
  apply getProp_Return in H2. subst data. fold brandData in Hok |- *.
  cbn [bind] in Hok |- *.
  destruct (truthy brandData); [|discriminate]. cbn [negb] in Hok |- *. cbv zeta in Hok |- *.
  match type of Hok with
  | isError (tryCatch (bind ?c _)) = false => destruct c as [css|] eqn:Hvars
  end; [|discriminate].
  cbn [bind] in Hok |- *.
  destruct (forEach components (componentSection doc brand) _) as [css'|] eqn:Hsec;
    [|discriminate].
  apply forEach_componentSection in Hsec. subst css'. cbn [bind tryCatch ok text].
  assert (Hv : css = ("/* " ++ toString (prop brandData "name")
                       ++ " - Complete Stylesheet */" ++ nl
                       ++ "/* Generated: " ++ now ++ " */" ++ nl ++ nl
                       ++ "/* ========== CSS Variables ========== */" ++ nl
                       ++ ":root {" ++ nl)
                     ++ (if truthy (prop brandData "css")
                         then variablesText (prop brandData "css") else "")).
  { destruct (truthy (prop brandData "css")).
    - apply variableLines_text in Hvars. rewrite Hvars. append_normal.
    - injection Hvars as <-. append_normal. }
  rewrite Hv. append_normal.
Qed.

Lemma generate_css_blocks_witness :
  isError (generate_css sampleStandards "2026-01-01T00:00:00.000Z" "pmc" (Some ["buttons"]))
  = false
  /\ text (generate_css sampleStandards "2026-01-01T00:00:00.000Z" "pmc" (Some ["buttons"]))
     = "/* Pan-Mass Challenge - Complete Stylesheet */" ++ nl
       ++ "/* Generated: 2026-01-01T00:00:00.000Z */" ++ nl ++ nl
       ++ "/* ========== CSS Variables ========== */" ++ nl
       ++ ":root {" ++ nl
       ++ "  /* colors */" ++ nl
       ++ "  --primary: #AB292C;" ++ nl
       ++ "  --accent: var(--primary);" ++ nl ++ nl
       ++ "}" ++ nl ++ nl
       ++ "/* ========== Buttons ========== */" ++ nl
       ++ ".pmc-buttons {" ++ nl ++ "  padding: 8px 16px;" ++ nl ++ "}" ++ nl ++ nl
       ++ ".pmc-buttons:hover {" ++ nl ++ "  opacity: 0.9;" ++ nl ++ "}" ++ nl ++ nl.
Proof.
  assert (Hok : isError (generate_css sampleStandards "2026-01-01T00:00:00.000Z" "pmc"
                           (Some ["buttons"])) = false) by (vm_compute; reflexivity).
  split; [exact Hok|].
  rewrite (generate_css_blocks sampleStandards "2026-01-01T00:00:00.000Z" "pmc"
             (Some ["buttons"]) Hok).
  vm_compute. reflexivity.
Defined.

(** C8 as stated fails: a requested component that [cssRules] lacks gets
    no block (the sample document has no modals), and a [hover] key whose
    value is falsy gets no hover block. *)
Lemma generate_css_blocks_missing :
  isError (generate_css sampleStandards "2026-01-01T00:00:00.000Z" "pmc" None) = false
  /\ includes (text (generate_css sampleStandards "2026-01-01T00:00:00.000Z" "pmc" None))
              ".pmc-modals {" = false
  /\ hasProp (prop (prop hoverlessStandards "cssRules") "buttons") "hover" = true
  /\ isError (generate_css hoverlessStandards "2026-01-01T00:00:00.000Z" "pmc"
                (Some ["buttons"])) = false
  /\ includes (text (generate_css hoverlessStandards "2026-01-01T00:00:00.000Z" "pmc"
                       (Some ["buttons"])))
              ".pmc-buttons:hover {" = false.
Proof. repeat split; vm_compute; reflexivity. Qed.

(** ** Absent keys *)

(** The tools that look for a brand or a component answer with an error
    envelope when the document has no truthy entry for it. *)
Lemma unknown_key_is_error (stringify : JSValue -> string) (designStandards : JSValue)
      (now brand component format : string) (category prefix : option string)
      (includeComponents : option (list string)) :
  (truthy (prop (prop designStandards "brands") brand) = false ->
   isError (get_brand_styles stringify designStandards brand format) = true
   /\ isError (get_css_variables stringify designStandards brand category format) = true
   /\ isError (generate_css designStandards now brand includeComponents) = true)
  /\ (truthy (prop (prop designStandards "cssRules") component) = false ->
      isError (get_css_rules stringify designStandards component format prefix) = true).
Proof.
  split.
  - intros Habsent.
    unfold get_brand_styles, get_css_variables, generate_css.
    destruct (getProp designStandards "brands") as [brands|] eqn:H1;
      [|repeat split; reflexivity].
    apply getProp_Return in H1. subst brands. cbn [bind].
    destruct (getProp (prop designStandards "brands") brand) as [data|] eqn:H2;
      [|repeat split; reflexivity].
    apply getProp_Return in H2. subst data. cbn [bind].
    rewrite Habsent. repeat split; reflexivity.
  - intros Habsent. unfold get_css_rules.
    destruct (getProp designStandards "cssRules") as [rules|] eqn:H1; [|reflexivity].
    apply getProp_Return in H1. subst rules. cbn [bind].
    destruct (getProp (prop designStandards "cssRules") component) as [data|] eqn:H2;
      [|reflexivity].
    apply getProp_Return in H2. subst data. cbn [bind].
    rewrite Habsent. reflexivity.
Qed.

(** C5, at the inputs where the code departs from it: for a category
    that the document lacks, [get_usage_guidelines] and [get_css_variables]
    (format json) answer with a normal envelope around an object whose one
    property is undefined, not with an error; [get_css_variables] (format
    css) reaches an error only through the exception of [Object.entries];
    an unknown brand is answered with an error envelope. *)
Theorem absent_category_not_an_error :
  forall stringify : JSValue -> string,
    get_usage_guidelines stringify sampleStandards "typography"
    = {| text := stringify (JObject [("typography", JUndefined)]); isError := false |}
    /\ get_css_variables stringify sampleStandards "pmc" (Some "boxShadow") "json"
       = {| text := stringify (JObject [("boxShadow", JUndefined)]); isError := false |}
    /\ get_css_variables stringify sampleStandards "pmc" (Some "boxShadow") "css"
       = {| text := "Error: Cannot convert undefined or null to object"; isError := true |}
    /\ isError (get_brand_styles stringify sampleStandards "unknown" "json") = true.
Proof. intros stringify. repeat split; vm_compute; reflexivity. Qed.

(** * Further properties of the two servers *)

(** ** The site tools: sites, failures and addresses *)


(** X1: a site outside the registry (and not one of the names the
    registry object inherits, which the lookup [EVENT_SITES[site]] would
    find) is refused by the three sitemap tools with one and the same
    error envelope, which names the site and lists the valid ones; the
    network plays no part in the answer. *)
Theorem unknown_site_refused :
  forall (net : Network) (site pattern : string) (caseInsensitive : bool) (limit : Z),
    lookupSite EVENT_SITES site = None ->
    inheritedName site = false ->
    let refusal :=
      {| text := "Error: Unknown site " ++ dquote ++ site ++ dquote
                 ++ ". Valid sites are: pmc, unpaved, wintercycle";
         isError := true |} in
    fetch_sitemap net site = refusal
    /\ search_events net site pattern caseInsensitive = refusal
    /\ list_all_events net site limit = refusal.
Proof.
  intros net site pattern ci limit Hnone _ refusal.
  unfold fetch_sitemap, search_events, list_all_events. rewrite Hnone.
  repeat split.
Qed.

Lemma unknown_site_refused_witness :
  lookupSite EVENT_SITES "boston" = None
  /\ inheritedName "boston" = false
  /\ list_all_events sampleNetwork "boston" 50 =
     {| text := "Error: Unknown site " ++ dquote ++ "boston" ++ dquote
                ++ ". Valid sites are: pmc, unpaved, wintercycle";
        isError := true |}.
Proof.
  split; [reflexivity|]. split; [reflexivity|].
  exact (proj2 (proj2 (unknown_site_refused sampleNetwork "boston" "" true 50
                         eq_refl eq_refl))).
Defined.

(** X2: when the sitemap cannot be fetched, the three sitemap tools
    answer with an error envelope whose text names the address and the
    cause: the status of a response that is not ok, or the message of the
    network fault. *)
Theorem sitemap_fetch_failure_reported :
  forall (net : Network) (site : string) (eventSite : Site) (pattern : string)
         (caseInsensitive : bool) (limit : Z),
    lookupSite EVENT_SITES site = Some eventSite ->
    (forall (status : Z) (body : string),
        net (sitemapUrl eventSite) = Http false status body ->
        let report :=
          {| text := "Error: Failed to fetch from " ++ baseUrl eventSite
                     ++ sitemapPath eventSite ++ ": HTTP error! status: " ++ showZ status;
             isError := true |} in
        fetch_sitemap net site = report
        /\ search_events net site pattern caseInsensitive = report
        /\ list_all_events net site limit = report)
    /\ (forall message : string,
           net (sitemapUrl eventSite) = NetworkFault message ->
           let report :=
             {| text := "Error: Failed to fetch from " ++ baseUrl eventSite
                        ++ sitemapPath eventSite ++ ": " ++ message;
                isError := true |} in
           fetch_sitemap net site = report
           /\ search_events net site pattern caseInsensitive = report
           /\ list_all_events net site limit = report).
Proof.
  intros net site eventSite pattern ci limit known. split.
  - intros status body Hnet report.
    unfold fetch_sitemap, search_events, list_all_events, fetchContent.
    rewrite known, Hnet. cbn [bind tryCatch]. unfold report, failure, sitemapUrl.
    repeat split; f_equal; append_normal.
  - intros message Hnet report.
    unfold fetch_sitemap, search_events, list_all_events, fetchContent.
    rewrite known, Hnet. cbn [bind tryCatch]. unfold report, failure, sitemapUrl.
    repeat split; f_equal; append_normal.
Qed.

Lemma sitemap_fetch_failure_reported_witness :
  lookupSite EVENT_SITES "unpaved"
  = Some {| name := "Unpaved"; baseUrl := "https://www.unpaved.org";
            sitemapPath := "/sitemap.xml" |}
  /\ fetch_sitemap (fun _ => Http false 503 "") "unpaved" =
     {| text := "Error: Failed to fetch from https://www.unpaved.org/sitemap.xml: HTTP error! status: 503";
        isError := true |}
  /\ search_events (fun _ => NetworkFault "fetch failed") "unpaved" "ride" true =
     {| text := "Error: Failed to fetch from https://www.unpaved.org/sitemap.xml: fetch failed";
        isError := true |}.
Proof.
  split; [reflexivity|]. split.
  - exact (proj1 (proj1 (sitemap_fetch_failure_reported
                           (fun _ => Http false 503 "") "unpaved" _ "" true 0 eq_refl)
                        503%Z "" eq_refl)).
  - exact (proj1 (proj2 (proj2 (sitemap_fetch_failure_reported
                           (fun _ => NetworkFault "fetch failed") "unpaved" _ "ride" true 0
                           eq_refl)
                        "fetch failed" eq_refl))).
Defined.






(** ** The sitemap parser: what it returns *)

Lemma startsWith_append_l (a b p : string) :
  startsWith a p = true -> startsWith (a ++ b) p = true.
Proof.
  revert a. induction p as [|x p IH]; intros a H; [reflexivity|].
  destruct a as [|c a]; [discriminate|]. cbn in H |- *.
  apply andb_true_iff in H as [Hc Hp]. now rewrite Hc, (IH a Hp).
Qed.

Lemma locBody_sound (s : string) :
  forall t rest : string,
    locBody s = Some (t, rest) ->
    s = t ++ "</loc>" ++ rest
    /\ anyChar isLineTerminator t = false
    /\ includes t "</loc>" = false.
Proof.
  induction s as [|c s IH]; intros t rest; [discriminate|].
  rewrite locBody_cons.
  destruct (startsWith (String c s) "</loc>") eqn:Hclose.
  - intros H. assert (Ht : t = "") by congruence.
    assert (Hr : rest = drop 6 (String c s)) by congruence. subst t rest.
    split; [exact (startsWith_inv _ _ Hclose)|]. split; reflexivity.
  - destruct (isLineTerminator c) eqn:Hc; [discriminate|].
    destruct (locBody s) as [[t' rest']|] eqn:E; [|discriminate].
    intros H. assert (Ht : t = String c t') by congruence.
    assert (Hr : rest = rest') by congruence. subst t rest'.
    destruct (IH t' rest eq_refl) as (Hs & Hnl & Hin).
    split; [change (String c s = String c (t' ++ "</loc>" ++ rest)); now rewrite <- Hs|].
    split.
    + cbn [anyChar]. now rewrite Hc, Hnl.
    + rewrite includes_unfold, Hin, orb_false_r.
      destruct (startsWith (String c t') "</loc>") eqn:Hp; [|reflexivity].
      apply (startsWith_append_l _ ("</loc>" ++ rest)) in Hp.
      change (String c t' ++ "</loc>" ++ rest)
        with (String c (t' ++ "</loc>" ++ rest)) in Hp.
      rewrite <- Hs in Hp. congruence.
Qed.

Lemma execLoc_sound (s t rest : string) :
  execLoc s = Some (t, rest) ->
  s = "<loc>" ++ t ++ "</loc>" ++ rest
  /\ anyChar isLineTerminator t = false
  /\ includes t "</loc>" = false.
Proof.
  unfold execLoc. destruct (startsWith s "<loc>") eqn:Hopen; [|discriminate].
  intros H. apply locBody_sound in H as (Hs & Hrest).
  split; [|exact Hrest].
  apply startsWith_inv in Hopen. change (String.length "<loc>") with 5 in Hopen.
  rewrite Hopen at 1. now rewrite Hs.
Qed.

Lemma parseLoop_sound (xml : string) (fuel : nat) :
  forall (s before : string) (urls : list string),
    xml = before ++ s ->
    Forall (locText xml) urls ->
    Forall (locText xml) (parseLoop fuel s urls).
Proof.
  induction fuel as [|fuel IH]; intros s before urls Hxml Hurls; [exact Hurls|].
  cbn [parseLoop]. destruct (execLoc s) as [[t rest]|] eqn:E.
  - apply execLoc_sound in E as (Hs & Hnl & Hin).
    apply (IH rest (before ++ "<loc>" ++ t ++ "</loc>")).
    + rewrite Hxml, Hs. append_normal.
    + apply Forall_app. split; [exact Hurls|]. constructor; [|constructor].
      split; [|split; assumption].
      exists before, rest. now rewrite Hxml, Hs.
  - destruct s as [|c s]; [exact Hurls|].
    apply (IH s (before ++ String c "")); [|exact Hurls].
    rewrite Hxml. append_normal.
Qed.

Lemma parseLoop_count (fuel : nat) :
  forall (s : string) (urls : list string),
    11 * length (parseLoop fuel s urls) <= 11 * length urls + String.length s.
Proof.
  induction fuel as [|fuel IH]; intros s urls; [cbn [parseLoop]; lia|].
  cbn [parseLoop]. destruct (execLoc s) as [[t rest]|] eqn:E.
  - apply execLoc_sound in E as (Hs & _).
    specialize (IH rest (urls ++ [t])%list). rewrite length_app in IH. cbn [length] in IH.
    rewrite Hs, !length_append. cbn [String.length]. lia.
  - destruct s as [|c s]; [lia|]. specialize (IH s urls). cbn [String.length]. lia.
Qed.

(** X5: every string [parseSitemap] returns stands in the input between
    a [<loc>] and a [</loc>] marker, holds no line terminator and holds no
    closing marker; this for every input, well formed or not. *)
Theorem parseSitemap_sound :
  forall (xml u : string),
    In u (parseSitemap xml) ->
    (exists before after, xml = before ++ "<loc>" ++ u ++ "</loc>" ++ after)
    /\ anyChar isLineTerminator u = false
    /\ includes u "</loc>" = false.
Proof.
  intros xml u Hin.
  pose proof (parseLoop_sound xml (S (String.length xml)) xml "" [] eq_refl
                (Forall_nil _)) as H.
  rewrite Forall_forall in H. exact (H u Hin).
Qed.

Lemma parseSitemap_sound_witness :
  In "a<loc>b" (parseSitemap "<loc>a<loc>b</loc></loc>x<loc></loc>")
  /\ exists before after,
       "<loc>a<loc>b</loc></loc>x<loc></loc>"
       = before ++ "<loc>" ++ "a<loc>b" ++ "</loc>" ++ after.
Proof.
  assert (Hin : In "a<loc>b" (parseSitemap "<loc>a<loc>b</loc></loc>x<loc></loc>"))
    by (vm_compute; left; reflexivity).
  split; [exact Hin|].
  exact (proj1 (parseSitemap_sound _ _ Hin)).
Defined.

(** X6: a match takes at least the eleven characters of its two markers,
    so an input of n characters gives at most n / 11 strings. *)
Theorem parseSitemap_count_bound :
  forall xml : string, 11 * length (parseSitemap xml) <= String.length xml.
Proof.
  intros xml. unfold parseSitemap.
  pose proof (parseLoop_count (S (String.length xml)) xml []) as H.
  cbn [length] in H. lia.
Qed.

(** ** The text extractor: the shape of its output *)

Lemma tidyEnd_trimEnd (s : string) : tidyEnd (trimEnd s) = true.
Proof.
  induction s as [|c s IH]; [reflexivity|]. cbn [trimEnd].
  destruct (trimEnd s) as [|d t].
  - destruct (isSpace c) eqn:Hc; [reflexivity|]. cbn. now rewrite Hc.
  - exact IH.
Qed.

Lemma trimEnd_tidy (s : string) : tidyEnd s = true -> trimEnd s = s.
Proof.
  induction s as [|c s IH]; [reflexivity|]. intros H. cbn [trimEnd].
  destruct s as [|d s].
  - cbn in H |- *. apply negb_true_iff in H. now rewrite H.
  - change (tidyEnd (String d s) = true) in H. now rewrite (IH H).
Qed.

Lemma spaced_no_odd_space (afterSpace : bool) (s : string) :
  spaced afterSpace s = true -> anyChar isOddSpace s = false.
Proof.
  revert afterSpace. induction s as [|c s IH]; intros afterSpace H; [reflexivity|].
  cbn [spaced] in H. cbn [anyChar]. unfold isOddSpace at 1.
  destruct (isSpace c).
  - apply andb_true_iff in H as [H Hs]. apply andb_true_iff in H as [Hc _].
    rewrite Hc. cbn. exact (IH true Hs).
  - cbn. exact (IH false H).
Qed.

Lemma spaced_no_double_space (afterSpace : bool) (s : string) :
  spaced afterSpace s = true -> includes s "  " = false.
Proof.
  revert afterSpace. induction s as [|c s IH]; intros afterSpace H; [reflexivity|].
  rewrite includes_unfold. cbn [spaced] in H.
  destruct (isSpace c) eqn:Hc.
  - apply andb_true_iff in H as [H Hs]. rewrite (IH true Hs), orb_false_r.
    destruct s as [|d s]; [cbn; now rewrite andb_false_r|].
    cbn [startsWith]. destruct (Ascii.eqb d " ") eqn:Hd; [|now rewrite andb_false_r].
    apply Ascii.eqb_eq in Hd. subst d. cbn in Hs. discriminate.
  - rewrite (IH false H), orb_false_r. cbn [startsWith].
    destruct (Ascii.eqb c " ") eqn:E; [|reflexivity].
    apply Ascii.eqb_eq in E. subst c. discriminate.
Qed.

(** X7: the text [extractTextFromHtml] returns is normalised, whatever
    the input: its only white-space character is the plain space, no two
    spaces follow one another, and it neither begins nor ends with white
    space. *)
Theorem extractTextFromHtml_normalised :
  forall html : string,
    anyChar isOddSpace (extractTextFromHtml html) = false
    /\ includes (extractTextFromHtml html) "  " = false
    /\ tidyStart (extractTextFromHtml html) = true
    /\ tidyEnd (extractTextFromHtml html) = true.
Proof.
  intros html. unfold extractTextFromHtml. cbv zeta.
  match goal with |- context [trim (collapse false ?x)] => generalize x end.
  intros x.
  assert (Hsp : spaced false (trim (collapse false x)) = true).
  { unfold trim. apply spaced_trimEnd. apply (spaced_trimStart false).
    apply spaced_collapse. }
  split; [exact (spaced_no_odd_space _ _ Hsp)|].
  split; [exact (spaced_no_double_space _ _ Hsp)|].
  split.
  - unfold trim. apply tidyStart_trimEnd, tidyStart_trimStart.
  - unfold trim. apply tidyEnd_trimEnd.
Qed.

(** X8: text without [<] and without [&] only has its white space
    normalised, and text that is normalised already is returned as it
    is. *)
Theorem extractTextFromHtml_plain_text :
  forall text : string,
    anyChar isLt text = false ->
    anyChar isAmp text = false ->
    extractTextFromHtml text = trim (collapse false text)
    /\ (spaced false text = true -> tidyStart text = true -> tidyEnd text = true ->
        extractTextFromHtml text = text).
Proof.
  intros t Hlt Hamp.
  assert (E : extractTextFromHtml t = trim (collapse false t)).
  { unfold extractTextFromHtml. cbv zeta.
    rewrite (block_untouched "script" "" t Hlt), (block_untouched "style" "" t Hlt).
    rewrite (tag_untouched " " t Hlt).
    rewrite (entity_untouched "nbsp;" " " t Hamp), (entity_untouched "amp;" "&" t Hamp).
    rewrite (entity_untouched "lt;" "<" t Hamp), (entity_untouched "gt;" ">" t Hamp).
    rewrite (entity_untouched "quot;" dquote t Hamp), (entity_untouched "#39;" "'" t Hamp).
    reflexivity. }
  split; [exact E|].
  intros Hsp Hst Hend. rewrite E, (collapse_spaced false t Hsp). unfold trim.
  now rewrite (trimStart_tidy t Hst), (trimEnd_tidy t Hend).
Qed.

Lemma extractTextFromHtml_plain_text_witness :
  anyChar isLt "Ride  2026 > all " = false
  /\ anyChar isAmp "Ride  2026 > all " = false
  /\ extractTextFromHtml "Ride  2026 > all " = "Ride 2026 > all"
  /\ extractTextFromHtml "Ride 2026 > all" = "Ride 2026 > all".
Proof.
  split; [reflexivity|]. split; [reflexivity|]. split.
  - rewrite (proj1 (extractTextFromHtml_plain_text "Ride  2026 > all " eq_refl eq_refl)).
    vm_compute. reflexivity.
  - exact (proj2 (extractTextFromHtml_plain_text "Ride 2026 > all" eq_refl eq_refl)
                 eq_refl eq_refl eq_refl).
Defined.

(** ** The text extractor: script and style elements *)

Lemma startsWithCI_append (p r : string) :
  anyChar (between 65 90) p = false -> startsWithCI (p ++ r) p = true.
Proof.
  induction p as [|b p IH]; intros H; [reflexivity|].
  cbn [anyChar] in H. apply orb_false_iff in H as [Hb Hp].
  cbn [append startsWithCI]. rewrite Hb, Ascii.eqb_refl. exact (IH Hp).
Qed.

Lemma no_capital (q : string) :
  anyChar isCapitalOrLt q = false -> anyChar (between 65 90) q = false.
Proof.
  induction q as [|b q IH]; intros H; [reflexivity|].
  cbn [anyChar] in H |- *. apply orb_false_iff in H as [Hb Hq].
  apply orb_false_iff in Hb as [Hb _]. now rewrite Hb, (IH Hq).
Qed.

(** A pattern free of [<] that begins in [a] cannot run over into a text
    that is empty or begins with [<]. *)
Lemma startsWithCI_straddle (q : string) :
  anyChar isCapitalOrLt q = false ->
  forall a rest : string,
    rest = "" \/ (exists r, rest = String "<" r) ->
    startsWithCI (a ++ rest) q = true -> startsWithCI a q = true.
Proof.
  induction q as [|b q IH]; intros Hq a rest Hrest H; [reflexivity|].
  cbn [anyChar] in Hq. apply orb_false_iff in Hq as [Hb Hq].
  apply orb_false_iff in Hb as [_ Hb]. unfold isLt in Hb.
  destruct a as [|c a].
  - cbn [append] in H. destruct Hrest as [->|[r ->]]; [discriminate|].
    cbn [startsWithCI] in H. change (between 65 90 "<") with false in H.
    cbn iota in H. rewrite Ascii.eqb_sym, Hb in H. discriminate.
  - cbn [append startsWithCI] in H |- *.
    apply andb_true_iff in H as [Hc H]. rewrite Hc. exact (IH Hq a rest Hrest H).
Qed.

Lemma startsWithCI_opener (q a rest : string) :
  anyChar isCapitalOrLt q = false ->
  a <> "" ->
  rest = "" \/ (exists r, rest = String "<" r) ->
  startsWithCI a (String "<" q) = false ->
  startsWithCI (a ++ rest) (String "<" q) = false.
Proof.
  intros Hq Ha Hrest H. destruct a as [|c a]; [congruence|].
  cbn [append startsWithCI] in H |- *.
  destruct (Ascii.eqb (if between 65 90 c then lowerChar c else c) "<"); [|reflexivity].
  cbn [andb] in H |- *.
  destruct (startsWithCI (a ++ rest) q) eqn:E; [|reflexivity].
  apply (startsWithCI_straddle q Hq a rest Hrest) in E. congruence.
Qed.

Lemma includesCI_unfold (s p : string) :
  includesCI s p =
  startsWithCI s p || match s with "" => false | String _ s' => includesCI s' p end.
Proof. now destruct s. Qed.

Lemma afterClose_unfold (close s : string) :
  afterClose close s =
  if startsWithCI s close then Some (drop (String.length close) s)
  else match s with
       | "" => None
       | String _ s' => afterClose close s'
       end.
Proof. now destruct s. Qed.

Lemma afterClose_found (q inner rest : string) :
  anyChar isCapitalOrLt q = false ->
  includesCI inner (String "<" q) = false ->
  afterClose (String "<" q) (inner ++ String "<" q ++ rest) = Some rest.
Proof.
  intros Hq. induction inner as [|c inner IH]; intros Hin.
  - cbn [append]. rewrite afterClose_unfold.
    change (String "<" (q ++ rest)) with (String "<" q ++ rest).
    rewrite startsWithCI_append, drop_append; [reflexivity|].
    cbn [anyChar]. now rewrite (no_capital q Hq).
  - rewrite includesCI_unfold in Hin. apply orb_false_iff in Hin as [Hhead Hin].
    rewrite afterClose_unfold.
    rewrite (startsWithCI_opener q (String c inner) (String "<" q ++ rest) Hq);
      [|discriminate|right; now eexists|exact Hhead].
    cbn [append]. exact (IH Hin).
Qed.

Lemma block_found (tagName inner rest : string) :
  anyChar isCapitalOrLt tagName = false ->
  noWordStart inner = true ->
  includesCI inner ("</" ++ tagName ++ ">") = false ->
  block tagName (("<" ++ tagName) ++ inner ++ ("</" ++ tagName ++ ">") ++ rest) = Some rest.
Proof.
  intros Htag Hword Hin. unfold block.
  rewrite startsWithCI_append; [|cbn [append anyChar]; now rewrite (no_capital _ Htag)].
  change (S (String.length tagName)) with (String.length ("<" ++ tagName)).
  rewrite drop_append.
  assert (Hq : anyChar isCapitalOrLt ("/" ++ tagName ++ ">") = false).
  { cbn [append anyChar]. rewrite anyChar_append, Htag. reflexivity. }
  pose proof (afterClose_found ("/" ++ tagName ++ ">") inner rest Hq Hin) as Hclose.
  change (String "<" ("/" ++ tagName ++ ">")) with ("</" ++ tagName ++ ">") in Hclose.
  destruct inner as [|c inner].
  - cbn [append] in Hclose |- *. exact Hclose.
  - cbn [noWordStart] in Hword. apply negb_true_iff in Hword.
    change ((String c inner ++ ("</" ++ tagName ++ ">") ++ rest))
      with (String c (inner ++ ("</" ++ tagName ++ ">") ++ rest)) in Hclose |- *.
    cbn iota. rewrite Hword. exact Hclose.
Qed.

(** A replacement copies a text in which, followed by [s], no match
    begins. *)
Lemma replaceAll_skip (m : string -> option string) (rep s : string) :
  forall (a : string) (fuel : nat),
    (forall a1 c a2, a = a1 ++ String c a2 -> m (String c a2 ++ s) = None) ->
    String.length a <= fuel ->
    replaceAll m rep fuel (a ++ s) = a ++ replaceAll m rep (fuel - String.length a) s.
Proof.
  induction a as [|c a IH]; intros fuel Hm Hfuel.
  - cbn. now rewrite Nat.sub_0_r.
  - destruct fuel as [|fuel]; [cbn in Hfuel; lia|].
    change (String c a ++ s) with (String c (a ++ s)).
    cbn [replaceAll].
    change (String c (a ++ s)) with (String c a ++ s) at 1.
    rewrite (Hm "" c a eq_refl).
    cbn [String.length Nat.sub append]. f_equal. apply IH.
    + intros a1 c' a2 E. apply (Hm (String c a1) c' a2). cbn. now rewrite E.
    + cbn in Hfuel. lia.
Qed.

Lemma includesCI_suffix (a1 a2 p : string) :
  includesCI (a1 ++ a2) p = false -> includesCI a2 p = false.
Proof.
  induction a1 as [|c a1 IH]; intros H; [exact H|].
  change (String c a1 ++ a2) with (String c (a1 ++ a2)) in H.
  rewrite includesCI_unfold in H. apply orb_false_iff in H as [_ H]. exact (IH H).
Qed.

Lemma block_removed (tagName a inner rest : string) :
  anyChar isCapitalOrLt tagName = false ->
  includesCI a ("<" ++ tagName) = false ->
  noWordStart inner = true ->
  includesCI inner ("</" ++ tagName ++ ">") = false ->
  replace (block tagName) ""
          (a ++ ("<" ++ tagName) ++ inner ++ ("</" ++ tagName ++ ">") ++ rest)
  = a ++ replace (block tagName) "" rest.
Proof.
  intros Htag Ha Hword Hin.
  set (element := ("<" ++ tagName) ++ inner ++ ("</" ++ tagName ++ ">") ++ rest).
  pose proof (block_found tagName inner rest Htag Hword Hin) as Hfound.
  fold element in Hfound.
  pose proof (Fuel.block_consuming tagName element rest Hfound) as Hshort.
  unfold replace.
  rewrite replaceAll_skip; [|intros a1 c a2 E|rewrite length_append; lia].
  - f_equal. rewrite length_append.
    replace (S (String.length a + String.length element) - String.length a)
      with (S (String.length element)) by lia.
    transitivity (replaceAll (block tagName) "" (String.length element) rest).
    + cbn [replaceAll]. now rewrite Hfound.
    + apply Fuel.replaceAll_fuel; [apply Fuel.block_consuming|lia|lia].
  - unfold block. change ("<" ++ tagName) with (String "<" tagName) in Ha |- *.
    rewrite (startsWithCI_opener tagName (String c a2) element Htag);
      [reflexivity|discriminate|right; now eexists|].
    subst a. apply includesCI_suffix in Ha. rewrite includesCI_unfold in Ha.
    now apply orb_false_iff in Ha as [Ha _].
Qed.

(** X9: a [script] or [style] element is removed with its content: when
    no opener of that kind begins in the text before it, its opener is
    followed by something other than a word character, and no closing tag
    of that kind occurs before its own, the removal copies the text
    before the element, drops the element up to and including its closing
    tag, and goes on with the text after it. *)
Theorem script_and_style_elements_removed :
  forall (before inner rest : string),
    noWordStart inner = true ->
    (includesCI before "<script" = false ->
     includesCI inner "</script>" = false ->
     replace (block "script") "" (before ++ "<script" ++ inner ++ "</script>" ++ rest)
     = before ++ replace (block "script") "" rest)
    /\ (includesCI before "<style" = false ->
        includesCI inner "</style>" = false ->
        replace (block "style") "" (before ++ "<style" ++ inner ++ "</style>" ++ rest)
        = before ++ replace (block "style") "" rest).
Proof.
  intros before inner rest Hword. split; intros Hbefore Hinner.
  - exact (block_removed "script" before inner rest eq_refl Hbefore Hword Hinner).
  - exact (block_removed "style" before inner rest eq_refl Hbefore Hword Hinner).
Qed.

Lemma script_and_style_elements_removed_witness :
  noWordStart " type='module'>if (a < b) track();" = true
  /\ includesCI "<p>Ride</p>" "<script" = false
  /\ includesCI " type='module'>if (a < b) track();" "</script>" = false
  /\ replace (block "script") ""
       "<p>Ride</p><script type='module'>if (a < b) track();</script><p>Donate</p>"
     = "<p>Ride</p><p>Donate</p>".
Proof.
  split; [reflexivity|]. split; [reflexivity|]. split; [reflexivity|].
  refine (eq_trans (proj1 (script_and_style_elements_removed
                             "<p>Ride</p>" " type='module'>if (a < b) track();"
                             "<p>Donate</p>" eq_refl) eq_refl eq_refl) _).
  vm_compute. reflexivity.
Defined.

(** ** The variable renderer *)

Lemma appendAll_app (l1 l2 : list string) :
  appendAll (l1 ++ l2) = appendAll l1 ++ appendAll l2.
Proof.
  induction l1 as [|x l1 IH]; cbn; [reflexivity|]. now rewrite IH, append_assoc.
Qed.

Lemma processObject_leaves (indent : string) (obj : JSValue) :
  forall css : string,
    processObject indent obj css =
    css ++ appendAll (map (fun kv => variableLine indent (fst kv) (snd kv))
                          (stringLeaves obj)).
Proof.
  induction obj as [ | | b | n | s | items IH | props IH] using JSValue_induction;
    intros css; try (cbn; now rewrite append_nil_r).
  - cbn [processObject stringLeaves]. generalize (ownEntries (JString s)). intros l.
    revert css. induction l as [|[k v] l IHl]; intros css; cbn.
    + now rewrite append_nil_r.
    + rewrite IHl. destruct v; cbn; rewrite ?map_app, ?appendAll_app; cbn;
        append_normal.
  - cbn [processObject stringLeaves]. generalize 0%nat. revert css.
    induction IH as [|value items Hv _ IHitems]; intros css i.
    + cbn. now rewrite append_nil_r.
    + cbn zeta. rewrite IHitems, map_app, appendAll_app.
      destruct value; rewrite ?Hv; cbn [map appendAll fst snd]; append_normal.
  - cbn [processObject stringLeaves]. revert css.
    induction IH as [|[key value] props Hv _ IHprops]; intros css.
    + cbn. now rewrite append_nil_r.
    + cbn zeta. rewrite IHprops, map_app, appendAll_app. cbn [snd] in Hv.
      destruct value; rewrite ?Hv; cbn [map appendAll fst snd]; append_normal.
Qed.

(** X10: [generateCSSVariables] writes one declaration per string leaf of
    the token tree, in depth-first order, under the leaf's own key (the
    keys of the objects above it are dropped), between [:root {] and [}];
    arrays, numbers, booleans and nulls inside the tree give nothing; on
    [null] or [undefined] it throws. *)
Theorem generateCSSVariables_declarations :
  forall (variables : JSValue) (indent : string),
    generateCSSVariables variables indent =
    if isNullish variables
    then Throw "Cannot convert undefined or null to object"
    else Return (":root {" ++ nl
                 ++ appendAll (map (fun kv => indent ++ fst kv ++ ": " ++ snd kv ++ ";" ++ nl)
                                   (stringLeaves variables))
                 ++ "}" ++ nl).
Proof.
  intros variables indent. unfold generateCSSVariables.
  destruct variables; cbn [isNullish]; try reflexivity;
    cbv zeta; rewrite processObject_leaves; unfold variableLine;
    f_equal; append_normal.
Qed.

(** ** The search: what its records say *)

Lemma searchDesignStandards_flat (query : string) (cs : bool) (doc : JSValue) :
  searchDesignStandards query cs doc =
  if isNullish doc then Throw "Cannot convert undefined or null to object"
  else Return (flat_map (nodeRecords query cs) (traverse doc [])).
Proof.
  unfold searchDesignStandards.
  destruct doc; cbn [isNullish]; try reflexivity; now rewrite searchObject_traverse.
Qed.

Lemma In_nodeRecords (query : string) (cs : bool) (n : Node) (r : Match) :
  In r (nodeRecords query cs n) <->
  r = recordOf n
  /\ (keyCheck query cs (join "." (nodePath n)) (nodeKey n) = true
      \/ valueCheck query cs (nodeValue n) = true).
Proof.
  unfold nodeRecords.
  destruct (keyCheck _ _ _ _); destruct (valueCheck _ _ _); cbn; intuition congruence.
Qed.

(** X11: the search is sound and complete for its three tests.  Every
    record it returns holds the search term (the query, lower-cased unless
    the search is case-sensitive) in its key, in its lower-cased dotted
    path, or in its string value, key and value being lower-cased unless
    the search is case-sensitive; and every node of the document that
    passes one of the tests has its record returned. *)
Theorem search_records_match_query :
  forall (query : string) (caseSensitive : bool) (designStandards : JSValue)
         (results : list Match),
    searchDesignStandards query caseSensitive designStandards = Return results ->
    let term := if caseSensitive then query else toLowerCase query in
    let folded := fun s : string => if caseSensitive then s else toLowerCase s in
    (forall r : Match,
        In r results ->
        (exists a b, folded (key r) = a ++ term ++ b)
        \/ (exists a b, toLowerCase (path r) = a ++ term ++ b)
        \/ (exists s a b, value r = JString s /\ folded s = a ++ term ++ b))
    /\ (forall n : Node,
           In n (traverse designStandards []) ->
           (exists a b, folded (nodeKey n) = a ++ term ++ b)
           \/ (exists a b, toLowerCase (join "." (nodePath n)) = a ++ term ++ b)
           \/ (exists s a b, nodeValue n = JString s /\ folded s = a ++ term ++ b) ->
           In (recordOf n) results).
Proof.
  intros query cs doc results Hres term folded.
  rewrite searchDesignStandards_flat in Hres.
  destruct (isNullish doc); [discriminate|]. injection Hres as <-.
  assert (Hkey : forall p k,
             keyCheck query cs p k = true <->
             (exists a b, folded k = a ++ term ++ b)
             \/ (exists a b, toLowerCase p = a ++ term ++ b)).
  { intros p k. unfold keyCheck, searchTerm. cbv zeta.
    rewrite orb_true_iff, !includes_spec. reflexivity. }
  assert (Hval : forall v,
             valueCheck query cs v = true <->
             exists s a b, v = JString s /\ folded s = a ++ term ++ b).
  { intros v. unfold valueCheck, searchTerm. destruct v;
      try (split; [discriminate | intros (? & ? & ? & E & _); discriminate]).
    cbv zeta. rewrite includes_spec. split.
    - intros (a & b & E). now exists s, a, b.
    - intros (s' & a & b & E & H). injection E as <-. now exists a, b. }
  split.
  - intros r Hin. apply in_flat_map in Hin as (n & _ & Hin).
    apply In_nodeRecords in Hin as (-> & [Hk|Hv]).
    + apply Hkey in Hk. cbn [recordOf key path]. tauto.
    + apply Hval in Hv. cbn [recordOf value]. tauto.
  - intros n Hn Hmatch. apply in_flat_map. exists n. split; [exact Hn|].
    apply In_nodeRecords. split; [reflexivity|].
    destruct Hmatch as [H|[H|H]].
    + left. apply Hkey. now left.
    + left. apply Hkey. now right.
    + right. now apply Hval.
Qed.

Lemma search_records_match_query_witness :
  searchDesignStandards "PRIMARY" false sampleStandards =
  Return [ {| path := "brands.pmc.css.colors.--primary"; key := "--primary";
              value := JString "#AB292C" |};
           {| path := "brands.pmc.css.colors.--accent"; key := "--accent";
              value := JString "var(--primary)" |} ]
  /\ exists a b, toLowerCase "var(--primary)" = a ++ "primary" ++ b.
Proof.
  assert (H : searchDesignStandards "PRIMARY" false sampleStandards =
              Return [ {| path := "brands.pmc.css.colors.--primary"; key := "--primary";
                          value := JString "#AB292C" |};
                       {| path := "brands.pmc.css.colors.--accent"; key := "--accent";
                          value := JString "var(--primary)" |} ])
    by (vm_compute; reflexivity).
  split; [exact H|].
  destruct (proj1 (search_records_match_query "PRIMARY" false sampleStandards _ H)
                  {| path := "brands.pmc.css.colors.--accent"; key := "--accent";
                     value := JString "var(--primary)" |}
                  (or_intror (or_introl eq_refl)))
    as [(a & b & E)|[(a & b & E)|(s & a & b & Es & E)]].
  - vm_compute in E. exists "var(--", ")". reflexivity.
  - vm_compute in E. exists "var(--", ")". reflexivity.
  - injection Es as <-. exists a, b. exact E.
Defined.

Lemma join_snoc (sep : string) (l : list string) (k : string) :
  join sep (l ++ [k]) =
  match l with
  | [] => k
  | _ => join sep l ++ sep ++ k
  end.
Proof.
  induction l as [|x l IH]; [reflexivity|].
  destruct l as [|y l]; [reflexivity|].
  change (join sep ((x :: y :: l) ++ [k])) with (x ++ sep ++ join sep ((y :: l) ++ [k])).
  rewrite IH. change (join sep (x :: y :: l)) with (x ++ sep ++ join sep (y :: l)).
  append_normal.
Qed.

(** Every node met below [path] is a property of an object that is
    reached from [obj] by the keys [above]; the path of the node is
    [path], then [above], then the node's own key. *)
Lemma traverse_descends (obj : JSValue) :
  forall (path : list string) (n : Node),
    In n (traverse obj path) ->
    exists (above : list string) (parent : JSValue),
      descends obj above parent
      /\ In (nodeKey n, nodeValue n) (ownEntries parent)
      /\ nodePath n = (path ++ above ++ [nodeKey n])%list.
Proof.
  induction obj as [ | | b | z | s | items IH | props IH] using JSValue_induction;
    intros path n Hin; try contradiction.
  - cbn [traverse] in Hin. apply in_map_iff in Hin as ([k v] & <- & Hkv).
    exists [], (JString s). repeat split. exact Hkv.
  - cbn [traverse] in Hin.
    assert (Hsub : forall kv, In kv (indexed 0 items) -> In kv (ownEntries (JArray items)))
      by (intros kv H; exact H).
    set (whole := JArray items) in *. clearbody whole.
    revert Hin Hsub. generalize 0%nat.
    induction IH as [|value items Hv _ IHitems]; intros i Hin Hsub; [contradiction|].
    cbn zeta in Hin. cbn [indexed] in Hsub.
    destruct Hin as [<-|Hin].
    { exists [], whole. repeat split. apply Hsub. now left. }
    apply in_app_or in Hin as [Hin|Hin].
    + assert (Hchild : In (showNat i, value) (ownEntries whole)) by (apply Hsub; now left).
      destruct value; try contradiction;
        destruct (Hv _ _ Hin) as (above & parent & Hd & Hp & E);
        exists (showNat i :: above), parent;
        (split; [eexists; split; [exact Hchild|exact Hd]|]);
        (split; [exact Hp|]); rewrite E, <- app_assoc; reflexivity.
    + apply (IHitems (S i) Hin). intros kv H. apply Hsub. now right.
  - cbn [traverse] in Hin.
    assert (Hsub : forall kv, In kv props -> In kv (ownEntries (JObject props)))
      by (intros kv H; exact H).
    set (whole := JObject props) in *. clearbody whole.
    revert Hin Hsub.
    induction IH as [|[key value] props Hv _ IHprops]; intros Hin Hsub; [contradiction|].
    cbn zeta in Hin. cbn [snd] in Hv.
    destruct Hin as [<-|Hin].
    { exists [], whole. repeat split. apply Hsub. now left. }
    apply in_app_or in Hin as [Hin|Hin].
    + assert (Hchild : In (key, value) (ownEntries whole)) by (apply Hsub; now left).
      destruct value; try contradiction;
        destruct (Hv _ _ Hin) as (above & parent & Hd & Hp & E);
        exists (key :: above), parent;
        (split; [eexists; split; [exact Hchild|exact Hd]|]);
        (split; [exact Hp|]); rewrite E, <- app_assoc; reflexivity.
    + apply (IHprops Hin). intros kv H. apply Hsub. now right.
Qed.

(** X12: the dotted path of every record spells the way from the root to
    the property it records: there are keys [above] that lead from the
    root, through own properties, to an object of which the record's key
    and value are a property, and the path is these keys and then the
    key, joined by dots; so the path of a property of the root is its
    key, and every other path is the path of the enclosing object, a dot,
    and the key. *)
Theorem search_record_path_ends_with_key :
  forall (query : string) (caseSensitive : bool) (designStandards : JSValue)
         (results : list Match) (r : Match),
    searchDesignStandards query caseSensitive designStandards = Return results ->
    In r results ->
    exists (above : list string) (parent : JSValue),
      descends designStandards above parent
      /\ In (key r, value r) (ownEntries parent)
      /\ path r = join "." (above ++ [key r])
      /\ path r = match above with
                  | [] => key r
                  | _ => join "." above ++ "." ++ key r
                  end.
Proof.
  intros query cs doc results r Hres Hin.
  rewrite searchDesignStandards_flat in Hres.
  destruct (isNullish doc); [discriminate|]. injection Hres as <-.
  apply in_flat_map in Hin as (n & Hn & Hin).
  apply In_nodeRecords in Hin as [-> _].
  destruct (traverse_descends doc [] n Hn) as (above & parent & Hd & Hp & E).
  exists above, parent. cbn [recordOf path key value app] in E |- *.
  split; [exact Hd|]. split; [exact Hp|]. rewrite E.
  split; [reflexivity|]. apply join_snoc.
Qed.

Lemma search_record_path_ends_with_key_witness :
  searchDesignStandards "AB292C" false sampleStandards =
  Return [ {| path := "brands.pmc.css.colors.--primary"; key := "--primary";
              value := JString "#AB292C" |} ]
  /\ exists (above : list string) (parent : JSValue),
       descends sampleStandards above parent
       /\ In ("--primary", JString "#AB292C") (ownEntries parent)
       /\ "brands.pmc.css.colors.--primary" = join "." (above ++ ["--primary"]).
Proof.
  assert (H : searchDesignStandards "AB292C" false sampleStandards =
              Return [ {| path := "brands.pmc.css.colors.--primary"; key := "--primary";
                          value := JString "#AB292C" |} ])
    by (vm_compute; reflexivity).
  split; [exact H|].
  destruct (search_record_path_ends_with_key "AB292C" false sampleStandards _ _ H
              (or_introl eq_refl)) as (above & parent & Hd & Hp & E & _).
  exists above, parent. split; [exact Hd|]. split; [exact Hp|exact E].
Defined.

Lemma includes_empty (s : string) : includes s "" = true.
Proof. rewrite includes_unfold. reflexivity. Qed.

(** X13: the empty query matches everything: the search returns one
    record for every node of the document, and a second one for every
    node whose value is a string. *)
Theorem search_empty_query_returns_every_node :
  forall (caseSensitive : bool) (designStandards : JSValue),
    isNullish designStandards = false ->
    searchDesignStandards "" caseSensitive designStandards =
    Return (flat_map (fun n => match nodeValue n with
                               | JString _ => [recordOf n; recordOf n]
                               | _ => [recordOf n]
                               end)
                     (traverse designStandards [])).
Proof.
  intros cs doc Hdoc. rewrite searchDesignStandards_flat, Hdoc. f_equal.
  apply flat_map_ext. intros n. unfold nodeRecords, keyCheck, valueCheck, searchTerm.
  cbv zeta. replace (if cs then "" else toLowerCase "") with "" by now destruct cs.
  rewrite !includes_empty. cbn [orb].
  destruct (nodeValue n); try reflexivity. now rewrite includes_empty.
Qed.

Lemma search_empty_query_returns_every_node_witness :
  isNullish (JObject [("usage", JObject [("colors", JString "Brand colors.")])]) = false
  /\ searchDesignStandards "" true
       (JObject [("usage", JObject [("colors", JString "Brand colors.")])])
     = Return [ {| path := "usage"; key := "usage";
                   value := JObject [("colors", JString "Brand colors.")] |};
                {| path := "usage.colors"; key := "colors";
                   value := JString "Brand colors." |};
                {| path := "usage.colors"; key := "colors";
                   value := JString "Brand colors." |} ].
Proof.
  split; [reflexivity|].
  exact (search_empty_query_returns_every_node true
           (JObject [("usage", JObject [("colors", JString "Brand colors.")])]) eq_refl).
Defined.

Lemma toLowerCase_idempotent (s : string) : toLowerCase (toLowerCase s) = toLowerCase s.
Proof.
  induction s as [|c s IH]; cbn; [reflexivity|].
  now rewrite lowerChar_idempotent, IH.
Qed.

(** X14: a search that is not case-sensitive does not depend on the case
    of the query: the query and its lower-cased form give the same
    records. *)
Theorem search_ignores_query_case :
  forall (query : string) (designStandards : JSValue),
    searchDesignStandards query false designStandards
    = searchDesignStandards (toLowerCase query) false designStandards.
Proof.
  intros query doc. rewrite !searchDesignStandards_flat.
  destruct (isNullish doc); [reflexivity|]. f_equal.
  apply flat_map_ext. intros n. unfold nodeRecords, keyCheck, valueCheck, searchTerm.
  now rewrite toLowerCase_idempotent.
Qed.

(** ** The design-token tools *)

(** X15: [search_design_standards] with at least one record never
    answers with an error; it reports the full count, lists every record
    when [maxResults] is at least the count, and otherwise (for
    [maxResults] from 0 up) lists exactly the first [maxResults] records
    and says so. *)
Theorem search_design_standards_truncation :
  forall (stringify : JSValue -> string) (designStandards : JSValue) (query : string)
         (caseSensitive : bool) (maxResults : Z) (results : list Match),
    searchDesignStandards query caseSensitive designStandards = Return results ->
    results <> [] ->
    let render := fun r : Match =>
      "Path: " ++ path r ++ nl ++ "Value: "
      ++ (if typeofObject (value r) then stringify (value r) else toString (value r)) in
    let rule := nl ++ nl ++ "---" ++ nl ++ nl in
    let answer :=
      search_design_standards stringify designStandards query caseSensitive maxResults in
    ((Z.of_nat (length results) <= maxResults)%Z ->
     answer =
     {| text := "Found " ++ showNat (length results) ++ " result"
                ++ plural (length results) ++ " for " ++ dquote ++ query ++ dquote
                ++ ":" ++ nl ++ nl ++ join rule (map render results);
        isError := false |})
    /\ ((0 <= maxResults < Z.of_nat (length results))%Z ->
        length (firstn (Z.to_nat maxResults) results) = Z.to_nat maxResults
        /\ answer =
           {| text := "Found " ++ showNat (length results) ++ " result"
                      ++ plural (length results) ++ " for " ++ dquote ++ query ++ dquote
                      ++ " (showing first " ++ showZ maxResults ++ "):" ++ nl ++ nl
                      ++ join rule (map render (firstn (Z.to_nat maxResults) results));
              isError := false |}).
Proof.
  intros stringify doc query cs maxResults results Hres Hne render rule answer.
  assert (Hlen : Nat.eqb (length results) 0 = false).
  { destruct results; [congruence|reflexivity]. }
  unfold answer, search_design_standards. rewrite Hres. cbn [bind]. cbv zeta.
  rewrite Hlen. cbn [tryCatch]. unfold ok, showValue. fold render. fold rule.
  split.
  - intros Hall.
    destruct (Z.ltb_spec maxResults (Z.of_nat (length results))) as [|_]; [lia|].
    unfold slice0. destruct (Z.ltb_spec maxResults 0) as [|_]; [lia|].
    rewrite firstn_all2 by lia. f_equal; append_normal.
  - intros Hsome. split; [apply firstn_length_le; lia|].
    destruct (Z.ltb_spec maxResults (Z.of_nat (length results))) as [_|]; [|lia].
    unfold slice0. destruct (Z.ltb_spec maxResults 0) as [|_]; [lia|].
    f_equal; append_normal.
Qed.

Lemma search_design_standards_truncation_witness :
  searchDesignStandards "AB292C" false sampleStandards =
  Return [ {| path := "brands.pmc.css.colors.--primary"; key := "--primary";
              value := JString "#AB292C" |} ]
  /\ search_design_standards (fun _ => "{}") sampleStandards "AB292C" false 20
     = {| text := "Found 1 result for " ++ dquote ++ "AB292C" ++ dquote ++ ":" ++ nl ++ nl
                  ++ "Path: brands.pmc.css.colors.--primary" ++ nl ++ "Value: #AB292C";
          isError := false |}.
Proof.
  assert (H : searchDesignStandards "AB292C" false sampleStandards =
              Return [ {| path := "brands.pmc.css.colors.--primary"; key := "--primary";
                          value := JString "#AB292C" |} ])
    by (vm_compute; reflexivity).
  split; [exact H|].
  pose proof (search_design_standards_truncation (fun _ => "{}") sampleStandards
                "AB292C" false 20 _ H) as T.
  cbv zeta in T. destruct T as [T _]; [discriminate|].
  rewrite T; [vm_compute; reflexivity | vm_compute; discriminate].
Defined.

Lemma truthy_getProp (v : JSValue) (key : string) :
  truthy (prop v key) = true -> getProp v key = Return (prop v key).
Proof. destruct v; cbn; congruence. Qed.

Lemma truthy_prop_parent (v : JSValue) (key : string) :
  truthy (prop v key) = true -> isNullish v = false.
Proof. destruct v; cbn; congruence. Qed.

Lemma defined_getProp (v : JSValue) (key : string) :
  isNullish (prop v key) = false -> getProp v key = Return (prop v key).
Proof. destruct v; cbn; congruence. Qed.





(** X17: for every other component the format is of no effect:
    [get_css_rules] in format css answers as in format json, whatever the
    brand. *)
Theorem get_css_rules_css_only_for_three :
  forall (stringify : JSValue -> string) (designStandards : JSValue)
         (component : string) (brand : option string),
    rendersAsCss component = false ->
    get_css_rules stringify designStandards component "css" brand
    = get_css_rules stringify designStandards component "json" None.
Proof.
  intros stringify doc component brand Hcss. unfold get_css_rules.
  change (existsb (String.eqb component) ["buttons"; "cards"; "modals"])
    with (rendersAsCss component).
  rewrite Hcss, andb_false_r. reflexivity.
Qed.

Lemma get_css_rules_css_only_for_three_witness :
  rendersAsCss "typography" = false
  /\ get_css_rules (fun _ => "{}") sampleStandards "typography" "css" (Some "pmc")
     = get_css_rules (fun _ => "{}") sampleStandards "typography" "json" None.
Proof.
  split; [reflexivity|].
  exact (get_css_rules_css_only_for_three (fun _ => "{}") sampleStandards "typography"
           (Some "pmc") eq_refl).
Defined.

(** X18: the loop that writes the variables leaves the [fontFiles]
    category out: the text it writes, and whether it throws, are the same
    with and without that category, whatever the category holds. *)
Theorem variable_rendering_skips_fontFiles :
  forall (props : list (string * JSValue)) (css : string),
    variableLines (JObject props) css = variableLines (JObject (withoutFontFiles props)) css.
Proof.
  intros props. unfold variableLines. cbn [entries ownEntries bind].
  induction props as [|[category variables] props IH]; intros css; [reflexivity|].
  unfold withoutFontFiles. cbn [filter fst]. fold (withoutFontFiles props).
  destruct (category =? "fontFiles") eqn:E; cbn [negb].
  - cbn [forEach]. rewrite E. cbn [bind]. apply IH.
  - cbn [forEach]. rewrite E.
    destruct (entries variables) as [vars|]; [|reflexivity]. cbn [bind]. apply IH.
Qed.

(** X19: asked for the category [fontFiles] in format css,
    [get_css_variables] answers with an empty [:root] block for every
    brand that has CSS data, whatever the font files are. *)
Theorem get_css_variables_fontFiles_css_empty :
  forall (stringify : JSValue -> string) (designStandards : JSValue) (brand : string),
    truthy (prop (prop (prop designStandards "brands") brand) "css") = true ->
    get_css_variables stringify designStandards brand (Some "fontFiles") "css"
    = {| text := ":root {" ++ nl ++ "}" ++ nl; isError := false |}.
Proof.
  intros stringify doc brand Hcss.
  pose proof (truthy_prop_parent _ _ Hcss) as Hbrand.
  assert (Hdata : truthy (prop (prop doc "brands") brand) = true).
  { destruct (prop (prop doc "brands") brand) as [ | | b | n | s | items | props];
      try reflexivity; try (cbn in Hcss; discriminate).
    destruct s; [cbn in Hcss; discriminate|reflexivity]. }
  unfold get_css_variables.
  rewrite (defined_getProp doc "brands" (truthy_prop_parent _ _ Hdata)). cbn [bind].
  rewrite (truthy_getProp _ brand Hdata). cbn [bind].
  rewrite Hdata, Hcss. cbn [negb orb]. reflexivity.
Qed.

Lemma get_css_variables_fontFiles_css_empty_witness :
  truthy (prop (prop (prop sampleStandards "brands") "pmc") "css") = true
  /\ get_css_variables (fun _ => "{}") sampleStandards "pmc" (Some "fontFiles") "css"
     = {| text := ":root {" ++ nl ++ "}" ++ nl; isError := false |}.
Proof.
  split; [reflexivity|].
  exact (get_css_variables_fontFiles_css_empty (fun _ => "{}") sampleStandards "pmc" eq_refl).
Defined.






(** ** Matching with and without case *)

Lemma includes_toLowerCase (s t : string) :
  includes s t = true -> includes (toLowerCase s) (toLowerCase t) = true.
Proof.
  rewrite !includes_spec. intros (a & b & ->).
  exists (toLowerCase a), (toLowerCase b). now rewrite !toLowerCase_append.
Qed.

Lemma searchMatches_empty (urls : list string) (caseInsensitive : bool) :
  searchMatches urls "" caseInsensitive = urls.
Proof.
  unfold searchMatches.
  replace (if caseInsensitive then toLowerCase "" else "") with ""
    by now destruct caseInsensitive.
  induction urls as [|u urls IH]; [reflexivity|].
  cbn [filter]. cbv zeta. rewrite includes_empty. now rewrite IH.
Qed.

(** X22: the empty pattern matches every URL: [search_events] then keeps
    the whole sitemap, in its order. *)
Theorem search_events_empty_pattern :
  forall (net : Network) (site : string) (eventSite : Site) (status : Z) (xml : string)
         (caseInsensitive : bool),
    lookupSite EVENT_SITES site = Some eventSite ->
    net (sitemapUrl eventSite) = Http true status xml ->
    parseSitemap xml <> [] ->
    search_events net site "" caseInsensitive =
    {| text := "Found " ++ showNat (length (parseSitemap xml)) ++ " URL"
               ++ plural (length (parseSitemap xml)) ++ " matching " ++ dquote ++ dquote
               ++ " in " ++ name eventSite ++ ":" ++ nl ++ nl
               ++ join nl (parseSitemap xml);
       isError := false |}.
Proof.
  intros net site eventSite status xml ci known fetched Hne.
  rewrite (search_events_fetched net site eventSite status xml known fetched).
  cbv zeta.
  rewrite searchMatches_empty. destruct (parseSitemap xml); [congruence|]. reflexivity.
Qed.

Lemma search_events_empty_pattern_witness :
  parseSitemap "<loc>https://www.pmc.org/ride</loc>" <> []
  /\ search_events (fun _ => Http true 200 "<loc>https://www.pmc.org/ride</loc>") "pmc" "" false
     = {| text := "Found 1 URL matching " ++ dquote ++ dquote ++ " in Pan-Mass Challenge:"
                  ++ nl ++ nl ++ "https://www.pmc.org/ride";
          isError := false |}.
Proof.
  assert (Hne : parseSitemap "<loc>https://www.pmc.org/ride</loc>" <> [])
    by (vm_compute; discriminate).
  split; [exact Hne|].
  refine (eq_trans (search_events_empty_pattern
                      (fun _ => Http true 200 "<loc>https://www.pmc.org/ride</loc>")
                      "pmc" pmcSite 200 _ false eq_refl eq_refl Hne) _).
  vm_compute. reflexivity.
Defined.

(** X23: on URLs whose code units are all below 256, a URL that
    [search_events] keeps in a case-sensitive search is kept in the
    case-insensitive search for the same pattern too (a pattern that such
    a URL contains has its code units below 256 as well, and on these
    strings lower-casing works code unit by code unit). *)
Theorem search_events_case_insensitive_keeps_more :
  forall (urls : list string) (pattern url : string),
    In url (searchMatches urls pattern false) ->
    In url (searchMatches urls pattern true).
Proof.
  intros urls pattern url. unfold searchMatches. rewrite !filter_In.
  intros [Hin H]. split; [exact Hin|]. now apply includes_toLowerCase.
Qed.

Lemma search_events_case_insensitive_keeps_more_witness :
  In "https://www.pmc.org/Event-Day"
     (searchMatches ["https://www.pmc.org/Event-Day"; "https://www.pmc.org/ride"] "Event" false)
  /\ In "https://www.pmc.org/Event-Day"
        (searchMatches ["https://www.pmc.org/Event-Day"; "https://www.pmc.org/ride"] "Event" true).
Proof.
  assert (H : In "https://www.pmc.org/Event-Day"
                 (searchMatches ["https://www.pmc.org/Event-Day"; "https://www.pmc.org/ride"]
                                "Event" false))
    by (vm_compute; left; reflexivity).
  split; [exact H|].
  exact (search_events_case_insensitive_keeps_more _ _ _ H).
Defined.

(** X24: on a document whose keys and strings have all their code units
    below 256, every record of a case-sensitive search of the design
    standards is a record of the search for the same query that is not
    case-sensitive (a query that such a key, path or value contains has
    its code units below 256 as well). *)
Theorem search_case_sensitive_records_kept :
  forall (query : string) (designStandards : JSValue) (sensitive : list Match) (r : Match),
    searchDesignStandards query true designStandards = Return sensitive ->
    In r sensitive ->
    exists insensitive : list Match,
      searchDesignStandards query false designStandards = Return insensitive
      /\ In r insensitive.
Proof.
  intros query doc sensitive r Hres Hin.
  rewrite searchDesignStandards_flat in Hres |- *.
  destruct (isNullish doc); [discriminate|]. injection Hres as <-.
  eexists. split; [reflexivity|].
  apply in_flat_map in Hin as (n & Hn & Hin). apply in_flat_map. exists n.
  split; [exact Hn|].
  apply In_nodeRecords in Hin as [-> Hmatch]. apply In_nodeRecords.
  split; [reflexivity|]. destruct Hmatch as [H|H].
  - left. unfold keyCheck, searchTerm in H |- *. cbv zeta in H |- *.
    apply orb_true_iff in H as [H|H]; apply orb_true_iff.
    + left. now apply includes_toLowerCase.
    + right. apply includes_toLowerCase in H. now rewrite toLowerCase_idempotent in H.
  - right. unfold valueCheck, searchTerm in H |- *.
    destruct (nodeValue n); try discriminate. now apply includes_toLowerCase.
Qed.

Lemma search_case_sensitive_records_kept_witness :
  searchDesignStandards "AB292C" true sampleStandards =
  Return [ {| path := "brands.pmc.css.colors.--primary"; key := "--primary";
              value := JString "#AB292C" |} ]
  /\ exists insensitive : list Match,
       searchDesignStandards "AB292C" false sampleStandards = Return insensitive
       /\ In {| path := "brands.pmc.css.colors.--primary"; key := "--primary";
                value := JString "#AB292C" |} insensitive.
Proof.
  assert (H : searchDesignStandards "AB292C" true sampleStandards =
              Return [ {| path := "brands.pmc.css.colors.--primary"; key := "--primary";
                          value := JString "#AB292C" |} ])
    by (vm_compute; reflexivity).
  split; [exact H|].
  exact (search_case_sensitive_records_kept "AB292C" sampleStandards _ _ H
           (or_introl eq_refl)).
Defined.
